(** * Business_Intelligence: the tabular data insight engine

    A shallow embedding of the Python service under [python-service/]:
    [services/database.py] (query safety), [services/analysis.py]
    (statistics and insights), [services/charts.py] (chart selection),
    [services/prediction.py] (forecast) and the analysis pipeline of
    [main.py].

    Modelling conventions.
    - Text is [string] over 7-bit characters; the character classes of
      Python's [str] and [re] are the ASCII ones.
    - Finite Python floats are exact rationals ([Q]): rounding error,
      overflow and infinite cells are outside the model. A division by
      zero, which numpy answers with an infinity or a NaN, is kept apart
      in [xfloat].
    - A pandas DataFrame is a list of named columns, each numeric or not,
      with [None] for a missing cell. Column names are taken to be
      distinct, as they are in a frame built from dict rows, so that
      [df[name]] is one column.
    - Library calls whose result is not determined by the repository
      ([pd.to_datetime], the text of a float) are fields of [pandas_env]. *)

From Stdlib Require Import Bool Arith ZArith QArith Qround Qabs Lia Lqa
  Ascii String List Sorting.Permutation Sorting.Sorted Setoid.
Import ListNotations.

Local Open Scope string_scope.
Local Open Scope bool_scope.

(* ================================================================== *)
(** * Characters and strings, as Python's [str] methods see them      *)
(* ================================================================== *)

Module Text.

Definition code (c : ascii) : N := N_of_ascii c.

Definition in_range (lo hi : N) (c : ascii) : bool :=
  (lo <=? code c)%N && (code c <=? hi)%N.

Definition is_digit : ascii -> bool := in_range 48 57.
Definition is_lower : ascii -> bool := in_range 97 122.
Definition is_upper : ascii -> bool := in_range 65 90.
Definition is_alpha (c : ascii) : bool := is_lower c || is_upper c.

(** [\w] of [re]: letters, digits and the underscore. *)
Definition is_word (c : ascii) : bool :=
  is_alpha c || is_digit c || (code c =? 95)%N.

(** [str.isspace]: tab to carriage return, the four separators and space. *)
Definition is_space (c : ascii) : bool :=
  in_range 9 13 c || in_range 28 31 c || (code c =? 32)%N.

Definition upper_char (c : ascii) : ascii :=
  if is_lower c then ascii_of_N (code c - 32) else c.

Definition lower_char (c : ascii) : ascii :=
  if is_upper c then ascii_of_N (code c + 32) else c.

Fixpoint map_string (f : ascii -> ascii) (s : string) : string :=
  match s with
  | EmptyString => EmptyString
  | String c s' => String (f c) (map_string f s')
  end.

(** [s.upper()] and [s.lower()]. *)
Definition upper : string -> string := map_string upper_char.
Definition lower : string -> string := map_string lower_char.

Definition is_empty (s : string) : bool :=
  match s with EmptyString => true | _ => false end.

Fixpoint lstrip (s : string) : string :=
  match s with
  | EmptyString => EmptyString
  | String c s' => if is_space c then lstrip s' else s
  end.

Fixpoint rstrip (s : string) : string :=
  match s with
  | EmptyString => EmptyString
  | String c s' =>
      let r := rstrip s' in
      if is_space c && is_empty r then EmptyString else String c r
  end.

(** [s.strip()]. *)
Definition strip (s : string) : string := rstrip (lstrip s).

(** [s.startswith(p)]. *)
Fixpoint startswith (p s : string) : bool :=
  match p, s with
  | EmptyString, _ => true
  | String a p', String b s' => Ascii.eqb a b && startswith p' s'
  | String _ _, EmptyString => false
  end.

(** [p in s] for strings. *)
Fixpoint contains (p s : string) : bool :=
  startswith p s ||
  match s with
  | EmptyString => false
  | String _ s' => contains p s'
  end.

(** [s.replace('_', ' ')]. *)
Definition underscores_to_spaces : string -> string :=
  map_string (fun c => if (code c =? 95)%N then " "%char else c).

(** [s.title()]: a letter that follows a letter is lowered, any other
    letter is raised. *)
Fixpoint title_from (after_letter : bool) (s : string) : string :=
  match s with
  | EmptyString => EmptyString
  | String c s' =>
      String (if after_letter then lower_char c else upper_char c)
             (title_from (is_alpha c) s')
  end.

Definition title : string -> string := title_from false.

(** [str(z)] for an integer. *)
Fixpoint digits_of_pos (fuel : nat) (n : N) (acc : string) : string :=
  match fuel with
  | O => acc
  | S fuel' =>
      let acc' := String (ascii_of_N (48 + n mod 10)) acc in
      if (n / 10 =? 0)%N then acc' else digits_of_pos fuel' (n / 10) acc'
  end.

Definition str_of_N (n : N) : string :=
  digits_of_pos (S (N.to_nat (N.log2 n))) n EmptyString.

Definition str_of_Z (z : Z) : string :=
  match z with
  | Z0 => "0"
  | Zpos p => str_of_N (Npos p)
  | Zneg p => String "-"%char (str_of_N (Npos p))
  end.

End Text.

(* ================================================================== *)
(** * The fragment of [re] the service uses                           *)
(* ================================================================== *)

Module Re.
Import Text.

(** Patterns: one character of a class, sequence, alternation, and the
    zero-width assertions [^], [$] and [\b]. *)
Inductive regex : Type :=
| Chr (p : ascii -> bool)
| Eps
| Seq (r1 r2 : regex)
| Alt (r1 r2 : regex)
| Bol
| Eol
| WordB.

Fixpoint lit (s : string) : regex :=
  match s with
  | EmptyString => Eps
  | String c s' => Seq (Chr (Ascii.eqb c)) (lit s')
  end.

(** A literal under the [(?i)] flag. *)
Fixpoint lit_nocase (s : string) : regex :=
  match s with
  | EmptyString => Eps
  | String c s' =>
      Seq (Chr (fun x => Ascii.eqb (lower_char x) (lower_char c)))
          (lit_nocase s')
  end.

(** [r{n}]. *)
Fixpoint rep (n : nat) (r : regex) : regex :=
  match n with
  | O => Eps
  | S n' => Seq r (rep n' r)
  end.

Fixpoint alts (rs : list regex) : regex :=
  match rs with
  | [] => Chr (fun _ => false)
  | [r] => r
  | r :: rs' => Alt r (alts rs')
  end.

(** [\d] *)
Definition digit : regex := Chr is_digit.

(** [[-/]] *)
Definition dash_or_slash : regex :=
  Chr (fun c => (code c =? 45)%N || (code c =? 47)%N).

Definition word_before (prev : option ascii) : bool :=
  match prev with Some c => is_word c | None => false end.

Definition word_after (s : string) : bool :=
  match s with String c _ => is_word c | EmptyString => false end.

(** [\b] holds where exactly one side is a word character. *)
Definition at_boundary (prev : option ascii) (s : string) : bool :=
  xorb (word_before prev) (word_after s).

(** [$] holds at the end and before a final newline. *)
Definition at_end (s : string) : bool :=
  match s with
  | EmptyString => true
  | String c EmptyString => (code c =? 10)%N
  | _ => false
  end.

Definition at_start (prev : option ascii) : bool :=
  match prev with None => true | Some _ => false end.

(** Backtracking matcher: [prev] is the character before the position,
    [s] the rest of the subject, [k] what must match afterwards. *)
Fixpoint match_here (r : regex) (prev : option ascii) (s : string)
         (k : option ascii -> string -> bool) : bool :=
  match r with
  | Chr p =>
      match s with
      | String c s' => p c && k (Some c) s'
      | EmptyString => false
      end
  | Eps => k prev s
  | Seq r1 r2 => match_here r1 prev s (fun prev' s' => match_here r2 prev' s' k)
  | Alt r1 r2 => match_here r1 prev s k || match_here r2 prev s k
  | Bol => at_start prev && k prev s
  | Eol => at_end s && k prev s
  | WordB => at_boundary prev s && k prev s
  end.

Definition accept : option ascii -> string -> bool := fun _ _ => true.

(** [re.match(r, s)]: a match that starts at the first character. *)
Definition re_match (r : regex) (s : string) : bool :=
  match_here r None s accept.

Fixpoint search_from (r : regex) (prev : option ascii) (s : string) : bool :=
  match_here r prev s accept ||
  match s with
  | EmptyString => false
  | String c s' => search_from r (Some c) s'
  end.

(** [re.search(r, s)]: a match that starts anywhere. *)
Definition re_search (r : regex) (s : string) : bool :=
  search_from r None s.

End Re.

(* ================================================================== *)
(** * services/database.py                                            *)
(* ================================================================== *)

Module Database.
Import Text Re.

Definition dangerous_keywords : list string :=
  ["DROP"; "DELETE"; "UPDATE"; "INSERT"; "ALTER"; "CREATE"; "TRUNCATE";
   "EXEC"; "EXECUTE"].

(** [rf'\b{keyword}\b'] *)
Definition keyword_pattern (keyword : string) : regex :=
  Seq WordB (Seq (lit keyword) WordB).

Definition validate_sql (sql : string) : bool :=
  let sql_upper := upper (strip sql) in
  if existsb (fun keyword => re_search (keyword_pattern keyword) sql_upper)
             dangerous_keywords
  then false
  else if negb (startswith "SELECT" sql_upper || startswith "WITH" sql_upper)
  then false
  else true.

(** The header cleaning of [csv_to_sqlite]:
    [re.sub(r'[^a-zA-Z0-9_]', '_', col.strip()).lower()]. *)
Definition clean_column_name (col : string) : string :=
  lower (map_string (fun c => if is_word c then c else "_"%char) (strip col)).

(** [s.rsplit('.', 1)[0]] when [s] holds a dot: the text before the last
    one. *)
Fixpoint before_last_dot (s : string) : option string :=
  match s with
  | EmptyString => None
  | String c s' =>
      match before_last_dot s' with
      | Some stem => Some (String c stem)
      | None => if Ascii.eqb c "."%char then Some EmptyString else None
      end
  end.

(** The database path of [csv_to_sqlite]:
    [file_path.rsplit('.', 1)[0] + '.db']. *)
Definition db_path (file_path : string) : string :=
  match before_last_dot file_path with
  | Some stem => stem
  | None => file_path
  end ++ ".db".

End Database.

(* ================================================================== *)
(** * services/llm.py: cleaning the translator's reply                 *)
(* ================================================================== *)

Module Llm.
Import Text.

Definition newline : ascii := "010"%char.
Definition fence : string := "```".

Fixpoint drop_while (p : ascii -> bool) (s : string) : string :=
  match s with
  | EmptyString => EmptyString
  | String c s' => if p c then drop_while p s' else s
  end.

Fixpoint skip (n : nat) (s : string) : string :=
  match n, s with
  | S n', String _ s' => skip n' s'
  | _, _ => s
  end.

Fixpoint rev (s : string) : string :=
  match s with
  | EmptyString => EmptyString
  | String c s' => rev s' ++ String c EmptyString
  end.

(** Drop one newline at the front, if there is one. *)
Definition drop_newline (s : string) : string :=
  match s with
  | String c s' => if Ascii.eqb c newline then s' else s
  | EmptyString => EmptyString
  end.

(** [re.sub(r'^```\w*\n?', '', sql)]: an opening fence, its language
    tag and one newline. *)
Definition strip_opening_fence (sql : string) : string :=
  if startswith fence sql
  then drop_newline (drop_while is_word (skip 3 sql))
  else sql.

(** [re.sub(r'\n?```$', '', sql)], read from the end of the text: the
    fence that ends the text, or stands before its final newline, goes
    with one newline before it. *)
Definition strip_closing_fence (sql : string) : string :=
  let r := rev sql in
  let before_final_newline :=
    match r with
    | String c r' => Ascii.eqb c newline && startswith fence r'
    | EmptyString => false
    end in
  let r1 := if before_final_newline then skip 1 r else r in
  if startswith fence r1
  then rev (drop_newline (skip 3 r1))
       ++ (if before_final_newline then String newline EmptyString
           else EmptyString)
  else sql.

(** [s.rstrip(ch)] for one character. *)
Fixpoint rstrip_char (ch : ascii) (s : string) : string :=
  match s with
  | EmptyString => EmptyString
  | String c s' =>
      let r := rstrip_char ch s' in
      if Ascii.eqb c ch && is_empty r then EmptyString else String c r
  end.

(** What [nl_to_sql] makes of the completion's text ([content] of the
    first choice). *)
Definition clean_reply (content : string) : string :=
  let sql := strip content in
  let sql := strip_opening_fence sql in
  let sql := strip_closing_fence sql in
  let sql := strip sql in
  rstrip_char ";"%char sql.

(** [nl_to_sql] after the request: [reply] is the completion's text,
    [None] when the client or the request raised, which the function
    turns into a [ValueError]. The prompt it sends is not modelled. *)
Definition nl_to_sql (reply : option string) : option string :=
  match reply with
  | Some content => Some (clean_reply content)
  | None => None
  end.

End Llm.

(* ================================================================== *)
(** * Numbers: Python floats as rationals                              *)
(* ================================================================== *)

Module Num.
Local Open Scope Q_scope.

(** Round to the nearest integer, a tie going to the even neighbour. *)
Definition round_half_even (x : Q) : Z :=
  let f := Qfloor x in
  match Qcompare (x - inject_Z f) (1 # 2) with
  | Lt => f
  | Gt => (f + 1)%Z
  | Eq => if Z.even f then f else (f + 1)%Z
  end.

Definition pow10 (ndigits : nat) : Q := inject_Z (10 ^ Z.of_nat ndigits).

(** [round(x, ndigits)]. *)
Definition py_round (x : Q) (ndigits : nat) : Q :=
  Qred (inject_Z (round_half_even (x * pow10 ndigits)) / pow10 ndigits).

(** [round(sqrt(v), 2)] for [0 <= v], exactly: with [s] the integer root
    of [40000 v], the real [100 sqrt v] lies in [[s/2, (s+1)/2)], on the
    half-way point only when [40000 v] is the square of an odd [s]. *)
Definition round2_sqrt (v : Q) : Q :=
  let t := v * 40000 in
  let s := Z.sqrt (Qfloor t) in
  let m := (s / 2)%Z in
  let n :=
    if Z.even s then m
    else if Qeq_bool t (inject_Z (s * s)) && Z.even m then m
    else (m + 1)%Z in
  Qred (inject_Z n / 100).

(** What numpy answers for a quotient: a division by zero gives an
    infinity or a NaN instead of raising. *)
Inductive xfloat : Type :=
| Finite (q : Q)
| PosInf
| NegInf
| NaN.

Definition np_div (a b : Q) : xfloat :=
  if Qeq_bool b 0 then
    match Qcompare a 0 with
    | Gt => PosInf
    | Lt => NegInf
    | Eq => NaN
    end
  else Finite (Qred (a / b)).

Definition xf_opp (a : xfloat) : xfloat :=
  match a with
  | Finite q => Finite (Qred (- q))
  | PosInf => NegInf
  | NegInf => PosInf
  | NaN => NaN
  end.

Definition xf_add (a b : xfloat) : xfloat :=
  match a, b with
  | Finite p, Finite q => Finite (Qred (p + q))
  | NaN, _ | _, NaN => NaN
  | PosInf, NegInf | NegInf, PosInf => NaN
  | PosInf, _ | _, PosInf => PosInf
  | NegInf, _ | _, NegInf => NegInf
  end.

Definition xf_sub (a b : xfloat) : xfloat := xf_add a (xf_opp b).

Definition xf_sign (a : xfloat) : comparison :=
  match a with
  | Finite q => Qcompare q 0
  | PosInf => Gt
  | NegInf => Lt
  | NaN => Eq
  end.

Definition xf_mul (a b : xfloat) : xfloat :=
  match a, b with
  | Finite p, Finite q => Finite (Qred (p * q))
  | NaN, _ | _, NaN => NaN
  | _, _ =>
      match xf_sign a, xf_sign b with
      | Eq, _ | _, Eq => NaN
      | Gt, Gt | Lt, Lt => PosInf
      | _, _ => NegInf
      end
  end.

Definition qsum (l : list Q) : Q := fold_right Qplus 0 l.

Definition qlen (l : list Q) : Q := inject_Z (Z.of_nat (length l)).

(** [Series.mean()] of a series without missing values. *)
Definition mean (l : list Q) : Q := qsum l / qlen l.

Fixpoint insert_sorted (x : Q) (l : list Q) : list Q :=
  match l with
  | [] => [x]
  | y :: l' => if Qle_bool x y then x :: l else y :: insert_sorted x l'
  end.

Definition sort (l : list Q) : list Q := fold_right insert_sorted [] l.

(** [Series.median()]: the middle of the sorted values, or the mean of
    the two middle ones. *)
Definition median (l : list Q) : Q :=
  let s := sort l in
  let n := length s in
  if Nat.even n
  then (nth (n / 2 - 1) s 0 + nth (n / 2) s 0) / 2
  else nth (n / 2) s 0.

Definition qmin (a b : Q) : Q := if Qle_bool a b then a else b.
Definition qmax (a b : Q) : Q := if Qle_bool a b then b else a.

(** [Series.min()] and [Series.max()]. *)
Definition list_min (l : list Q) : Q :=
  match l with
  | [] => 0
  | x :: l' => fold_left qmin l' x
  end.

Definition list_max (l : list Q) : Q :=
  match l with
  | [] => 0
  | x :: l' => fold_left qmax l' x
  end.

(** The sample variance behind [Series.std()] (one degree of freedom
    removed). *)
Definition variance (l : list Q) : Q :=
  let m := mean l in
  qsum (map (fun x => (x - m) * (x - m)) l) / (qlen l - 1).

End Num.

(* ================================================================== *)
(** * The DataFrame                                                    *)
(* ================================================================== *)

Module Frame.
Import Text Num.

(** A numeric cell is an integer or a float. *)
Inductive num : Type :=
| NInt (z : Z)
| NFloat (q : Q).

Definition value (x : num) : Q :=
  match x with
  | NInt z => inject_Z z
  | NFloat q => q
  end.

(** A column's cells in row order; [None] is a missing cell (NaN, NULL).
    A column of a number dtype is [Numeric], any other is [Object]. *)
Inductive series : Type :=
| Numeric (vals : list (option num))
| Object (vals : list (option string)).

Record column : Type := { col_name : string; col_data : series }.

Definition DataFrame : Type := list column.

(** What pandas computes and the repository does not determine. *)
Record pandas_env : Type := {
  (** [pd.to_datetime(values, format='mixed')] returns instead of raising *)
  to_datetime_ok : list string -> bool;
  (** [str(x)] of a float *)
  float_str : Q -> string
}.

Definition series_len (s : series) : nat :=
  match s with
  | Numeric vals => length vals
  | Object vals => length vals
  end.

(** [len(df)] *)
Definition nrows (df : DataFrame) : nat :=
  match df with
  | [] => 0%nat
  | c :: _ => series_len (col_data c)
  end.

(** Every column has a cell for every row. *)
Definition rectangular (df : DataFrame) : Prop :=
  Forall (fun c => series_len (col_data c) = nrows df) df.

(** [df.empty]: no column or no row. *)
Definition empty (df : DataFrame) : bool :=
  match df with
  | [] => true
  | _ => (nrows df =? 0)%nat
  end.

Definition is_numeric (c : column) : bool :=
  match col_data c with Numeric _ => true | Object _ => false end.

(** [df.select_dtypes(include='number')] *)
Definition select_numeric (df : DataFrame) : DataFrame := filter is_numeric df.

Definition columns (df : DataFrame) : list string := map col_name df.

Fixpoint dropna {A : Type} (l : list (option A)) : list A :=
  match l with
  | [] => []
  | Some x :: l' => x :: dropna l'
  | None :: l' => dropna l'
  end.

(** The values of [col.dropna()] for a numeric column. *)
Definition numeric_values (c : column) : list Q :=
  match col_data c with
  | Numeric vals => map value (dropna vals)
  | Object _ => []
  end.

Definition num_str (env : pandas_env) (x : num) : string :=
  match x with
  | NInt z => str_of_Z z
  | NFloat q => float_str env q
  end.

(** [col.astype(str)]: a missing number reads "nan", a missing object
    "None". *)
Definition astype_str (env : pandas_env) (c : column) : list string :=
  match col_data c with
  | Numeric vals =>
      map (fun v => match v with Some x => num_str env x | None => "nan" end) vals
  | Object vals =>
      map (fun v => match v with Some s => s | None => "None" end) vals
  end.

(** [col.dropna().astype(str)] *)
Definition dropna_str (env : pandas_env) (c : column) : list string :=
  match col_data c with
  | Numeric vals => map (num_str env) (dropna vals)
  | Object vals => dropna vals
  end.

(** Which rows of the column hold a value. *)
Definition present (c : column) : list bool :=
  match col_data c with
  | Numeric vals => map (fun v => match v with Some _ => true | None => false end) vals
  | Object vals => map (fun v => match v with Some _ => true | None => false end) vals
  end.

Definition is_empty_list {A : Type} (l : list A) : bool :=
  match l with [] => true | _ => false end.

(** [df[name]]: the first column of that name. *)
Definition get_column (df : DataFrame) (name : string) : option column :=
  find (fun c => String.eqb (col_name c) name) df.

End Frame.

(* ================================================================== *)
(** * The sentences of the insight list                                *)
(* ================================================================== *)

Module Report.
Import Num.

Inductive trend : Type := upward | downward | stable.

(** Each sentence by the f-string that renders it; the interpolated
    values are kept, their number formatting is not modelled. *)
Inductive insight : Type :=
| TopContributor (cat_col top num_col : string) (pct : Q)
    (* "{Cat} '{top}' contributes the highest {num} ({pct:.1f}% of total)." *)
| RangeOf (col : string) (lo hi range_val : Q)
    (* "{Col} ranges from {min} to {max} (range: {range_val})." *)
| TrendUp (col : string) (pct : xfloat)
    (* "{col} shows an upward trend (increased by {pct:.1f}%)." *)
| TrendDown (col : string) (pct : xfloat)
    (* "{col} shows a downward trend (decreased by {pct:.1f}%)." *)
| TrendStable (col : string)
    (* "{col} remains relatively stable." *)
| RowCount (rows cols : nat)
    (* "Analysis based on {rows} data points across {cols} columns." *)
| Forecast (target : string) (predicted : Q) (tr : trend) (r2 : Q)
    (* "Predicted next period {target}: {predicted} (trend: {tr}, R2={r2})" *).

End Report.

(* ================================================================== *)
(** * services/analysis.py                                            *)
(* ================================================================== *)

Module Analysis.
Import Text Num Frame Report.
Local Open Scope Q_scope.

Record ColumnStats : Type := {
  st_mean : Q;
  st_median : Q;
  st_std : Q;
  st_min : Q;
  st_max : Q;
  st_count : nat
}.

(** A Python dict keeps insertion order; assigning an existing key
    overwrites in place. *)
Fixpoint dict_set {V : Type} (d : list (string * V)) (k : string) (v : V)
  : list (string * V) :=
  match d with
  | [] => [(k, v)]
  | (k', v') :: d' =>
      if String.eqb k' k then (k, v) :: d' else (k', v') :: dict_set d' k v
  end.

Definition column_stats (vals : list Q) : ColumnStats :=
  {| st_mean := py_round (mean vals) 2;
     st_median := py_round (median vals) 2;
     st_std := if (1 <? length vals)%nat then round2_sqrt (variance vals) else 0;
     st_min := py_round (list_min vals) 2;
     st_max := py_round (list_max vals) 2;
     st_count := length vals |}.

Definition compute_stats (df : DataFrame) : list (string * ColumnStats) :=
  let numeric_df := select_numeric df in
  if empty numeric_df then []
  else
    fold_left
      (fun stats col =>
         let series := numeric_values col in
         if (length series =? 0)%nat then stats
         else dict_set stats (col_name col) (column_stats series))
      numeric_df [].

Definition first_half_mean (series : list Q) : Q :=
  mean (firstn (length series / 2) series).

Definition second_half_mean (series : list Q) : Q :=
  mean (skipn (length series / 2) series).

(** The body of the loop of [detect_trends] for a column with at least
    three values. *)
Definition trend_of (col : string) (series : list Q) : insight :=
  let first_half := first_half_mean series in
  let second_half := second_half_mean series in
  if Qlt_le_dec (first_half * (11 # 10)) second_half then
    TrendUp col (xf_mul (xf_sub (np_div second_half first_half) (Finite 1))
                        (Finite 100))
  else if Qlt_le_dec second_half (first_half * (9 # 10)) then
    TrendDown col (xf_mul (xf_sub (Finite 1) (np_div second_half first_half))
                          (Finite 100))
  else TrendStable col.

Definition detect_trends (df : DataFrame) : list insight :=
  flat_map
    (fun col =>
       let series := numeric_values col in
       if (length series <? 3)%nat then []
       else [trend_of (col_name col) series])
    (select_numeric df).

(** [df.groupby(cat_col)[num_col].sum()]: rows whose key is missing are
    left out, a missing number counts for nothing. *)
Fixpoint add_to_group (groups : list (string * Q)) (k : string) (v : Q)
  : list (string * Q) :=
  match groups with
  | [] => [(k, v)]
  | (k', s) :: g' =>
      if String.eqb k' k then (k', Qred (s + v)) :: g'
      else (k', s) :: add_to_group g' k v
  end.

Fixpoint group_sums (keys : list (option string)) (vals : list (option num))
         (groups : list (string * Q)) : list (string * Q) :=
  match keys, vals with
  | Some k :: keys', v :: vals' =>
      group_sums keys' vals'
        (add_to_group groups k
           (match v with Some x => value x | None => 0 end))
  | None :: keys', _ :: vals' => group_sums keys' vals' groups
  | _, _ => groups
  end.

(** The head of [.sort_values(ascending=False)]: a group with the
    largest sum. Where several groups tie, pandas' sort decides; here
    the first of them in row order is taken. *)
Fixpoint top_group (groups : list (string * Q)) : option (string * Q) :=
  match groups with
  | [] => None
  | g :: groups' =>
      match top_group groups' with
      | Some g' => if Qle_bool (snd g') (snd g) then Some g else Some g'
      | None => Some g
      end
  end.

Definition top_contributor (df : DataFrame) : list insight :=
  match filter (fun c => negb (is_numeric c)) df, select_numeric df with
  | cat :: _, numc :: _ =>
      match col_data cat, col_data numc with
      | Object keys, Numeric vals =>
          let grouped := group_sums keys vals [] in
          if (1 <? length grouped)%nat then
            match top_group grouped with
            | Some (top, top_val) =>
                let total := qsum (map snd grouped) in
                let pct := if Qlt_le_dec 0 total
                           then Qred (top_val / total * 100) else 0 in
                [TopContributor (title (underscores_to_spaces (col_name cat)))
                                top
                                (underscores_to_spaces (col_name numc)) pct]
            | None => []
            end
          else []
      | _, _ => []
      end
  | _, _ => []
  end.

(** Every entry of a stats dict built by [compute_stats] has a min and
    a max, so the loop stops at the first entry. *)
Definition range_insight (stats : list (string * ColumnStats)) : list insight :=
  match stats with
  | [] => []
  | (col, col_stats) :: _ =>
      [RangeOf (title (underscores_to_spaces col))
               (st_min col_stats) (st_max col_stats)
               (Qred (st_max col_stats - st_min col_stats))]
  end.

Definition generate_insights (df : DataFrame)
           (stats : list (string * ColumnStats)) : list insight :=
  if empty df then []
  else
    (top_contributor df
     ++ range_insight stats
     ++ firstn 2 (detect_trends df)
     ++ [RowCount (nrows df) (length (columns df))])%list.

End Analysis.

(* ================================================================== *)
(** * services/charts.py                                              *)
(* ================================================================== *)

Module Charts.
Import Text Re Frame.

Inductive chart_type : Type := bar | line | pie | histogram | scatter.

Definition month_names : list string :=
  ["jan"; "feb"; "mar"; "apr"; "may"; "jun";
   "jul"; "aug"; "sep"; "oct"; "nov"; "dec"].

Definition time_patterns : list regex :=
  [ Seq Bol (Seq (rep 4 digit) Eol);                          (* ^\d{4}$ *)
    Seq Bol (Seq (rep 4 digit) (Seq dash_or_slash (rep 2 digit)));
                                                              (* ^\d{4}[-/]\d{2} *)
    Seq Bol (alts (map lit_nocase month_names)) ].            (* (?i)^(jan|...) *)

Definition mem (x : string) (l : list string) : bool :=
  existsb (String.eqb x) l.

(** The [try]/[except] around [pd.to_datetime]: the fallback patterns
    are consulted only when the parse raises. *)
Definition is_time (env : pandas_env) (x_values : list string) : bool :=
  if to_datetime_ok env x_values then true
  else
    forallb (fun v => existsb (fun p => re_match p v) time_patterns)
            (firstn 3 x_values).

Definition detect_chart_type (env : pandas_env) (df : DataFrame) : chart_type :=
  if empty df || (length (columns df) <? 1)%nat then bar
  else
    let cols := columns df in
    let num_cols := columns (select_numeric df) in
    let non_num_cols := filter (fun c => negb (mem c num_cols)) cols in
    if (length cols =? 1)%nat && (length num_cols =? 1)%nat then histogram
    else if (2 <=? length cols)%nat then
      match df with
      | [] => bar
      | x_col :: _ =>
          let x_values := astype_str env x_col in
          if is_time env x_values then line
          else if (nrows df <=? 6)%nat && (1 <=? length num_cols)%nat
                  && (1 <=? length non_num_cols)%nat then pie
          else if (15 <? nrows df)%nat then line
          else bar
      end
    else bar.

(** The figure handed to the renderer: its kind and the columns in each
    role. Titles, colours and layout are left out; so is the rendering
    to a PNG, which may itself fail and give the empty string. *)
Inductive figure : Type :=
| HistogramFig (x : string)
| PieFig (names values : string)
| LineFig (x : string) (traces : list string)
| ScatterFig (x y : string)
| BarFig (x : string) (traces : list string).

Definition nth_name (n : nat) (l : list string) : string := nth n l "".

(** [generate_chart] up to the figure; [None] is the empty result. A
    [chart_type] that is none of the five names takes the bar branch. *)
Definition generate_chart (env : pandas_env) (df : DataFrame)
           (chart_type : option chart_type) : option figure :=
  if empty df || (length (columns df) <? 1)%nat then None
  else
    let chart_type :=
      match chart_type with
      | None => detect_chart_type env df
      | Some t => t
      end in
    let cols := columns df in
    let num_cols := columns (select_numeric df) in
    let bar_branch :=
      if (2 <=? length cols)%nat then
        let x_col := nth_name 0 cols in
        let y_cols := if is_empty_list num_cols then [nth_name 1 cols]
                      else num_cols in
        Some (BarFig x_col (firstn 5 y_cols))
      else None in
    match chart_type with
    | histogram =>
        if (1 <=? length num_cols)%nat then Some (HistogramFig (nth_name 0 num_cols))
        else bar_branch
    | pie =>
        if (2 <=? length cols)%nat then
          let x_col := nth_name 0 cols in
          let y_col := if is_empty_list num_cols then nth_name 1 cols
                       else nth_name 0 num_cols in
          Some (PieFig x_col y_col)
        else bar_branch
    | line =>
        if (2 <=? length cols)%nat && (1 <=? length num_cols)%nat then
          let x_col := nth_name 0 cols in
          let y_cols := if negb (mem (nth_name 0 cols) num_cols)
                        then num_cols else num_cols in
          Some (LineFig x_col (firstn 5 y_cols))
        else bar_branch
    | scatter =>
        if (2 <=? length num_cols)%nat then
          Some (ScatterFig (nth_name 0 num_cols) (nth_name 1 num_cols))
        else bar_branch
    | bar => bar_branch
    end.

End Charts.

(* ================================================================== *)
(** * services/prediction.py                                          *)
(* ================================================================== *)

Module Prediction.
Import Text Re Num Frame Report.
Local Open Scope Q_scope.

Definition date_patterns : list regex :=
  [ Seq (rep 4 digit) (Seq dash_or_slash (Seq (rep 2 digit)
      (Seq dash_or_slash (rep 2 digit))));                    (* YYYY-MM-DD *)
    Seq (rep 2 digit) (Seq dash_or_slash (Seq (rep 2 digit)
      (Seq dash_or_slash (rep 4 digit))));                    (* DD-MM-YYYY *)
    Seq (rep 4 digit) (Seq dash_or_slash (rep 2 digit));      (* YYYY-MM *)
    Seq Bol (Seq (rep 4 digit) Eol) ].                        (* year only *)

Definition time_keywords : list string :=
  ["date"; "time"; "year"; "month"; "day"; "period"; "quarter"].

(** [matches >= len(sample) * 0.7], in tenths. *)
Definition looks_like_dates (env : pandas_env) (col : column) : bool :=
  let sample := firstn 10 (dropna_str env col) in
  let matches :=
    length (filter (fun v => existsb (fun p => re_match p v) date_patterns)
                   sample) in
  (7 * length sample <=? 10 * matches)%nat.

Definition detect_time_column (env : pandas_env) (df : DataFrame)
  : option string :=
  match find (looks_like_dates env) df with
  | Some col => Some (col_name col)
  | None =>
      match find (fun col =>
                    existsb (fun kw => contains kw (lower (col_name col)))
                            time_keywords) df with
      | Some col => Some (col_name col)
      | None => None
      end
  end.

Definition detect_target_column (df : DataFrame) (question : string)
  : option string :=
  let numeric_cols := columns (select_numeric df) in
  match numeric_cols with
  | [] => None
  | first :: _ =>
      let question_lower := lower question in
      match find (fun col =>
                    contains (lower (underscores_to_spaces col)) question_lower
                    || contains (lower col) question_lower) numeric_cols with
      | Some col => Some col
      | None => Some first
      end
  end.

(** The target values of the rows of [df[[time_col, target_col]].dropna()]. *)
Fixpoint paired_values (time_present : list bool) (target : list (option num))
  : list Q :=
  match time_present, target with
  | true :: m, Some x :: v => value x :: paired_values m v
  | _ :: m, _ :: v => paired_values m v
  | _, _ => []
  end.

(** [np.arange(n)] *)
Definition arange (n : nat) : list Q :=
  map (fun i => inject_Z (Z.of_nat i)) (seq 0 n).

Fixpoint dot (u v : list Q) : Q :=
  match u, v with
  | a :: u', b :: v' => a * b + dot u' v'
  | _, _ => 0
  end.

Definition centered (l : list Q) : list Q := map (fun a => a - mean l) l.

(** [LinearRegression().fit(X, y)] with one feature: the least-squares
    slope and intercept. *)
Definition coef (xs ys : list Q) : Q :=
  dot (centered xs) (centered ys) / dot (centered xs) (centered xs).

Definition intercept (xs ys : list Q) : Q :=
  mean ys - coef xs ys * mean xs.

(** [model.predict] at one point. *)
Definition predict_at (xs ys : list Q) (x : Q) : Q :=
  intercept xs ys + coef xs ys * x.

(** [r2_score(y, y_pred)]; with no spread in [y] the score is 1 for a
    perfect fit and 0 otherwise. *)
Definition r2_score (y y_pred : list Q) : Q :=
  let res := map (fun p => fst p - snd p) (combine y y_pred) in
  let ss_res := dot res res in
  let ss_tot := dot (centered y) (centered y) in
  if Qeq_bool ss_tot 0 then (if Qeq_bool ss_res 0 then 1 else 0)
  else 1 - ss_res / ss_tot.

Inductive failure : Type :=
| NoTimeColumn       (* "No time/date column detected. ..." *)
| NoNumericColumn    (* "No numeric column found to predict." *)
| NotEnoughData      (* "Not enough data points for prediction (need at least 3)." *)
| PredictionFailed   (* "Prediction failed: ..." of the [except] branch *).

Record forecast : Type := {
  predicted_value : Q;
  metric : string;
  confidence : Q;
  trend_tag : trend;
  message : insight
}.

Inductive prediction : Type :=
| Failure (why : failure)
| Success (f : forecast).

Definition classify_slope (slope : Q) : trend :=
  match Qcompare slope 0 with
  | Gt => upward
  | Lt => downward
  | Eq => stable
  end.

Definition fit_and_report (target_col : string) (y : list Q) : forecast :=
  let X := arange (length y) in
  let predicted := Qred (predict_at X y (qlen y)) in
  let y_pred := map (predict_at X y) X in
  let r2 := Qred (r2_score y y_pred) in
  let slope := coef X y in
  let tr := classify_slope slope in
  {| predicted_value := py_round predicted 2;
     metric := title (underscores_to_spaces target_col);
     confidence := py_round r2 4;
     trend_tag := tr;
     message := Forecast (underscores_to_spaces target_col) predicted tr r2 |}.

(** When the time column is also the target, [df[[c, c]]] holds it twice,
    [pred_df[c]] is two-dimensional and [float(...)] of the two
    predictions raises: the [except] branch answers. *)
Definition predict (env : pandas_env) (df : DataFrame) (question : string)
  : prediction :=
  match detect_time_column env df with
  | None => Failure NoTimeColumn
  | Some time_col =>
      match detect_target_column df question with
      | None => Failure NoNumericColumn
      | Some target_col =>
          match get_column df time_col, get_column df target_col with
          | Some tc, Some yc =>
              match col_data yc with
              | Numeric target =>
                  let y := paired_values (present tc) target in
                  if (length y <? 3)%nat then Failure NotEnoughData
                  else if String.eqb time_col target_col
                       then Failure PredictionFailed
                       else Success (fit_and_report target_col y)
              | Object _ => Failure PredictionFailed
              end
          | _, _ => Failure PredictionFailed
          end
      end
  end.

End Prediction.

(* ================================================================== *)
(** * main.py: the analysis pipeline                                   *)
(* ================================================================== *)

Module Main.
Import Text Num Frame Report Analysis Charts Prediction Database.

Definition prediction_keywords : list string :=
  ["predict"; "forecast"; "next month"; "next quarter"; "next year";
   "future"; "estimate"].

(** The question implies prediction. *)
Definition asks_prediction (question : string) : bool :=
  existsb (fun kw => contains kw (lower question)) prediction_keywords.

Record result : Type := {
  sql_query : string;
  table_result : DataFrame;
  chart : option figure;
  stats : list (string * ColumnStats);
  insights : list insight;
  prediction_result : option prediction
}.

Inductive response : Type :=
| Done (r : result)
| HttpError (status : nat).

(** [bool(pred.get("predicted_value"))]: a failure holds [None], and a
    forecast of zero is falsy too. *)
Definition has_predicted_value (p : prediction) : bool :=
  match p with
  | Failure _ => false
  | Success f => negb (Qeq_bool (predicted_value f) 0)
  end.

Definition message_of (p : prediction) : list insight :=
  match p with
  | Failure _ => []
  | Success f => [message f]
  end.

(** [analyze_data] from step 2 on. [sql] is what the translator
    returned; [executed] is the table [execute_query] returns for it
    ([None]: it raised); [full_df] is the table [SELECT * FROM data]
    gives ([None]: reading it raised). *)
Definition analyze_data (env : pandas_env) (question sql : string)
           (executed : option DataFrame) (full_df : option DataFrame)
  : response :=
  if negb (validate_sql sql) then HttpError 400
  else
    match executed with
    | None => HttpError 400
    | Some table =>
        let nonempty := negb (nrows table =? 0)%nat in
        let chart_b64 := if nonempty then generate_chart env table None else None in
        let stats := if nonempty then compute_stats table else [] in
        let insights := if nonempty then generate_insights table stats else [] in
        let step6 :=
          if asks_prediction question then
            match full_df with
            | Some full =>
                let pred := predict env full question in
                (Some pred,
                 if has_predicted_value pred
                 then (insights ++ message_of pred)%list else insights)
            | None => (Some (Failure PredictionFailed), insights)
            end
          else (None, insights) in
        Done {| sql_query := sql;
                table_result := table;
                chart := chart_b64;
                stats := stats;
                insights := snd step6;
                prediction_result := fst step6 |}
    end.

(** How [execute_query] ends. [sqlite3.connect] lies outside its [try]
    and raises as it is; what the query raises inside the [try] is
    turned into a [ValueError]. *)
Inductive execution : Type :=
| ConnectError
| QueryError
| Rows (table : DataFrame).

(** The whole of [analyze_data], step 1 and the three [except] clauses
    included. [reply] is the completion's text ([None]: the client or
    the request raised, and [nl_to_sql] raises a [ValueError]); [run] is
    how [execute_query] ends on the translated query. A [ValueError] is
    answered 400, any other exception 500. *)
Definition analyze_request (env : pandas_env) (question : string)
           (reply : option string) (run : execution)
           (full_df : option DataFrame)
  : response :=
  match Llm.nl_to_sql reply with
  | None => HttpError 400
  | Some sql =>
      if negb (validate_sql sql) then HttpError 400
      else
        match run with
        | ConnectError => HttpError 500
        | QueryError => HttpError 400
        | Rows table => analyze_data env question sql (Some table) full_df
        end
  end.

End Main.

(* ================================================================== *)
(** * The vocabulary of the properties                                 *)
(* ================================================================== *)

Module Spec.
Import Text Re Num Frame Report Analysis Charts Prediction Database Llm Main.
Local Open Scope Q_scope.

(** The character before the position reached after reading [pre]. *)
Fixpoint last_char (prev : option ascii) (pre : string) : option ascii :=
  match pre with
  | EmptyString => prev
  | String c pre' => last_char (Some c) pre'
  end.



Definition normalized (sql : string) : string := upper (strip sql).

(** A number with at most two decimals. *)
Definition two_decimals (x : Q) : Prop := exists z : Z, x == inject_Z z / 100.

Definition all_missing (c : column) : Prop :=
  match col_data c with
  | Numeric vals => dropna vals = []
  | Object vals => dropna vals = []
  end.

(** The order of the checks of [predict], for any table. *)
Definition early_failure (env : pandas_env) (df : DataFrame) (q : string)
  : failure :=
  match detect_time_column env df with
  | None => NoTimeColumn
  | Some _ =>
      match detect_target_column df q with
      | None => NoNumericColumn
      | Some _ => NotEnoughData
      end
  end.

Definition fig_x (f : figure) : string :=
  match f with
  | HistogramFig x | PieFig x _ | LineFig x _ | ScatterFig x _ | BarFig x _ => x
  end.

Definition fig_traces (f : figure) : list string :=
  match f with
  | LineFig _ t | BarFig _ t => t
  | PieFig _ v => [v]
  | ScatterFig _ y => [y]
  | HistogramFig _ => []
  end.

Definition is_line_or_bar (f : figure) : bool :=
  match f with
  | LineFig _ _ | BarFig _ _ => true
  | _ => false
  end.

(** The y-series the code resolves when it is asked for a line or a bar
    chart: the numeric columns, or the second column alone when there is
    none. *)
Definition y_columns (df : DataFrame) : list string :=
  let num_cols := columns (select_numeric df) in
  if is_empty_list num_cols then [nth_name 1 (columns df)] else num_cols.

(** The insight list as steps 3 to 5 leave it. *)
Definition base_insights (table : DataFrame) : list insight :=
  if (nrows table =? 0)%nat then []
  else generate_insights table (compute_stats table).

(** The sum of squared residuals of the line [b + a x]. *)
Fixpoint sse (xs ys : list Q) (a b : Q) : Q :=
  match xs, ys with
  | x :: xs', y :: ys' => (y - (b + a * x)) * (y - (b + a * x)) + sse xs' ys' a b
  | _, _ => 0
  end.

Definition shift (m : Q) (l : list Q) : list Q := map (fun v => v - m) l.

(** Every character of [s] satisfies [p]. *)
Fixpoint all_chars (p : ascii -> bool) (s : string) : bool :=
  match s with
  | EmptyString => true
  | String c s' => p c && all_chars p s'
  end.

(** A character of a lower-case identifier: [a-z], [0-9] or [_]. *)
Definition ident_char (c : ascii) : bool :=
  is_lower c || is_digit c || (code c =? 95)%N.

Definition not_dot (c : ascii) : bool := negb (Ascii.eqb c "."%char).

(** The chart type a figure draws. *)
Definition fig_kind (f : figure) : chart_type :=
  match f with
  | HistogramFig _ => histogram
  | PieFig _ _ => pie
  | LineFig _ _ => line
  | ScatterFig _ _ => scatter
  | BarFig _ _ => bar
  end.

(** The column's name holds one of the time keywords. *)
Definition named_like_time (c : column) : bool :=
  existsb (fun kw => contains kw (lower (col_name c))) time_keywords.

(** The question holds the column name, as written or with its
    underscores read as spaces. *)
Definition mentioned (col question : string) : bool :=
  contains (lower (underscores_to_spaces col)) (lower question)
  || contains (lower col) (lower question).

(** The insight list of a response; an error response has none. *)
Definition insights_of (resp : response) : list insight :=
  match resp with
  | Done r => insights r
  | HttpError _ => []
  end.

(** A sentence of [detect_trends]. *)
Definition is_trend (s : insight) : bool :=
  match s with
  | TrendUp _ _ | TrendDown _ _ | TrendStable _ => true
  | _ => false
  end.

(** A numeric column with at least one value. *)
Definition has_values (c : column) : bool :=
  negb (length (numeric_values c) =? 0)%nat.

(** A whole number. *)
Definition is_whole (v : Q) : bool := (Z.pos (Qden (Qred v)) =? 1)%Z.

(** Values whose float64 sum is exact: whole numbers whose magnitudes
    add up to 2^53 at most. *)
Definition sums_exactly (vals : list Q) : bool :=
  forallb is_whole vals
  && Qle_bool (qsum (map Qabs vals)) (inject_Z (2 ^ 53)).

End Spec.

(* ================================================================== *)
(** * Tables used as examples                                          *)
(* ================================================================== *)

Module Examples.
Import Num Frame.

Definition plain_env : pandas_env :=
  {| to_datetime_ok := fun _ => false; float_str := fun _ => "nan" |}.

Definition ints (l : list Z) : series := Numeric (map (fun z => Some (NInt z)) l).

Definition texts (l : list string) : series := Object (map Some l).

Definition regions : DataFrame :=
  [ {| col_name := "region";
       col_data := Object [Some "north"; Some "south"; Some "east"] |} ].

(** A numeric column whose first half is all zero. *)
Definition zero_then_five : DataFrame :=
  [ {| col_name := "x";
       col_data := Numeric [Some (NInt 0); Some (NInt 0);
                            Some (NInt 5); Some (NInt 5)] |} ].

Definition notes_then_dates : DataFrame :=
  [ {| col_name := "notes"; col_data := Object [None; None; None] |};
    {| col_name := "order_date";
       col_data := Object [Some "2024-01-05"; Some "2024-02-05";
                           Some "2024-03-05"] |};
    {| col_name := "amount";
       col_data := Numeric [Some (NInt 3); Some (NInt 4); Some (NInt 5)] |} ].

Definition two_labels : DataFrame :=
  [ {| col_name := "label"; col_data := Object [Some "alpha"; Some "beta"] |};
    {| col_name := "amount"; col_data := Numeric [Some (NInt 1); Some (NInt 2)] |} ].

Definition twenty_products : DataFrame :=
  [ {| col_name := "product";
       col_data := texts ["p01"; "p02"; "p03"; "p04"; "p05"; "p06"; "p07";
                          "p08"; "p09"; "p10"; "p11"; "p12"; "p13"; "p14";
                          "p15"; "p16"; "p17"; "p18"; "p19"; "p20"] |};
    {| col_name := "units";
       col_data := ints [5; 3; 8; 1; 9; 4; 7; 2; 6; 5; 3; 8; 1; 9; 4; 7; 2;
                         6; 5; 3]%Z |} ].

Definition five_regions : DataFrame :=
  [ {| col_name := "region";
       col_data := texts ["north"; "south"; "east"; "west"; "centre"] |};
    {| col_name := "revenue"; col_data := ints [10; 20; 30; 40; 50]%Z |} ].

Definition one_measure : DataFrame :=
  [ {| col_name := "revenue"; col_data := ints [10; 20; 30]%Z |} ].

Definition five_months : DataFrame :=
  [ {| col_name := "month";
       col_data := texts ["Jan"; "Feb"; "Mar"; "Apr"; "May"] |};
    {| col_name := "revenue"; col_data := ints [10; 20; 30; 40; 50]%Z |} ].

Definition seven_measures : DataFrame :=
  {| col_name := "shop"; col_data := texts ["a"; "b"] |}
  :: map (fun n => {| col_name := n; col_data := ints [1; 2]%Z |})
         ["m1"; "m2"; "m3"; "m4"; "m5"; "m6"; "m7"].

Definition two_text_columns : DataFrame :=
  [ {| col_name := "region"; col_data := texts ["north"; "south"] |};
    {| col_name := "city"; col_data := texts ["oslo"; "rome"] |} ].

Definition month_column : column :=
  {| col_name := "month";
     col_data := texts ["2024-01"; "2024-02"; "2024-03"; "2024-04"] |}.

Definition sales_column : column :=
  {| col_name := "total_sales"; col_data := ints [10; 20; 30; 40]%Z |}.

Definition monthly_sales : DataFrame := [month_column; sales_column].

Definition january_only : DataFrame :=
  [ {| col_name := "month"; col_data := texts ["2024-01"] |};
    {| col_name := "total_sales"; col_data := ints [10]%Z |} ].

Definition unnamed_series : DataFrame :=
  [ {| col_name := "label"; col_data := texts ["alpha"; "beta"; "gamma"] |};
    {| col_name := "amount"; col_data := ints [1; 2; 3]%Z |} ].

Definition sales_with_gaps : DataFrame :=
  [ {| col_name := "region";
       col_data := Object [Some "north"; Some "south"; Some "east"] |};
    {| col_name := "sales";
       col_data := Numeric [Some (NInt 10); None; Some (NFloat (41 # 2))] |};
    {| col_name := "returns";
       col_data := Numeric [None; Some (NInt 7); None] |};
    {| col_name := "bonus"; col_data := Numeric [None; None; None] |} ].

Definition named_then_dated : DataFrame :=
  [ {| col_name := "day_name"; col_data := texts ["mon"; "tue"; "wed"] |};
    {| col_name := "shipped";
       col_data := texts ["2024-01-05"; "2024-01-06"; "2024-01-07"] |} ].

Definition flat_zero : DataFrame :=
  [ {| col_name := "month"; col_data := texts ["2024-01"; "2024-02"; "2024-03"] |};
    {| col_name := "net_change"; col_data := ints [0; 0; 0]%Z |} ].

Definition yearly_sales : DataFrame :=
  [ {| col_name := "year"; col_data := ints [2020; 2021; 2022; 2023]%Z |};
    {| col_name := "sales"; col_data := ints [10; 20; 30; 40]%Z |} ].

Definition year_series : DataFrame :=
  [ {| col_name := "year"; col_data := ints [10; 20; 30; 40]%Z |} ].

End Examples.

(* ================================================================== *)
(** * Properties                                                       *)
(* ================================================================== *)

Import Text Re Spec Examples.

Section RegexFacts.

Lemma last_char_app prev a b :
  last_char prev (a ++ b) = last_char (last_char prev a) b.
Proof.
  revert prev; induction a as [|c a IH]; intros prev; simpl; auto.
Qed.



End RegexFacts.

Section QuerySafety.
Import Database.





End QuerySafety.

(* ------------------------------------------------------------------ *)
(** ** Rounding and order statistics                                   *)
(* ------------------------------------------------------------------ *)

Section Rounding.
Import Num.
Local Open Scope Q_scope.

Lemma round_half_even_bounds x :
  (Qfloor x <= round_half_even x <= Qfloor x + 1)%Z.
Proof.
  unfold round_half_even.
  destruct (Qcompare _ _); [destruct (Z.even _)| |]; lia.
Qed.

(** The rounded integer is within one half of the number. *)
Lemma round_half_even_nearest x :
  inject_Z (round_half_even x) - (1 # 2) <= x /\
  x <= inject_Z (round_half_even x) + (1 # 2).
Proof.
  unfold round_half_even.
  pose proof (Qfloor_le x) as Hlo. pose proof (Qlt_floor x) as Hhi.
  rewrite inject_Z_plus in Hhi. change (inject_Z 1) with 1 in Hhi.
  destruct (Qcompare_spec (x - inject_Z (Qfloor x)) (1 # 2)) as [C|C|C];
    [destruct (Z.even (Qfloor x))| |];
    rewrite ?inject_Z_plus; change (inject_Z 1) with 1; split; lra.
Qed.

Lemma round_half_even_mono x y :
  x <= y -> (round_half_even x <= round_half_even y)%Z.
Proof.
  intros Hxy.
  pose proof (Qfloor_resp_le x y Hxy) as Hf.
  destruct (Z.eq_dec (Qfloor x) (Qfloor y)) as [E | NE].
  - unfold round_half_even. rewrite <- E.
    destruct (Qcompare_spec (x - inject_Z (Qfloor x)) (1 # 2)) as [Cx|Cx|Cx];
      destruct (Qcompare_spec (y - inject_Z (Qfloor x)) (1 # 2)) as [Cy|Cy|Cy];
      try (destruct (Z.even (Qfloor x))); try lia; exfalso; lra.
  - pose proof (round_half_even_bounds x). pose proof (round_half_even_bounds y).
    lia.
Qed.

Lemma pow10_2 : pow10 2 = 100.
Proof. reflexivity. Qed.

Lemma py_round_2 x :
  py_round x 2 == inject_Z (round_half_even (x * 100)) / 100.
Proof. unfold py_round. rewrite Qred_correct, pow10_2. reflexivity. Qed.

Lemma py_round_mono x y : x <= y -> py_round x 2 <= py_round y 2.
Proof.
  intros H. rewrite !py_round_2.
  assert (Hm : x * 100 <= y * 100) by lra.
  apply round_half_even_mono in Hm. rewrite Zle_Qle in Hm.
  unfold Qdiv. apply Qmult_le_compat_r; [exact Hm | discriminate].
Qed.

Lemma py_round_two_decimals x : two_decimals (py_round x 2).
Proof. eexists. apply py_round_2. Qed.

Lemma round2_sqrt_hundredths v :
  exists n : Z, (0 <= n)%Z /\ round2_sqrt v == inject_Z n / 100.
Proof.
  unfold round2_sqrt.
  set (s := Z.sqrt (Qfloor (v * 40000))).
  assert (Hs : (0 <= s)%Z) by apply Z.sqrt_nonneg.
  assert (Hm : (0 <= s / 2)%Z) by (apply Z.div_pos; lia).
  eexists. split; [|apply Qred_correct].
  destruct (Z.even s); [exact Hm|].
  destruct (_ && _); lia.
Qed.

(** [round2_sqrt v] is a nearest hundredth to the root of [v]: with
    [n] its hundredths, [n - 1/2 <= 100 sqrt v <= n + 1/2], stated on
    the squares of the doubled bounds. *)
Lemma round2_sqrt_nearest v :
  0 <= v ->
  exists n : Z,
    round2_sqrt v == inject_Z n / 100 /\
    (n = 0%Z \/ inject_Z ((2 * n - 1) * (2 * n - 1)) <= v * 40000) /\
    v * 40000 <= inject_Z ((2 * n + 1) * (2 * n + 1)).
Proof.
  intros Hv. unfold round2_sqrt.
  set (t := v * 40000). set (f := Qfloor t). set (s := Z.sqrt f).
  assert (Hf0 : (0 <= f)%Z).
  { unfold f. change 0%Z with (Qfloor 0). apply Qfloor_resp_le. unfold t. lra. }
  destruct (Z.sqrt_spec f Hf0) as [Hs1 Hs2]. fold s in Hs1, Hs2.
  pose proof (Qfloor_le t) as Hlo. pose proof (Qlt_floor t) as Hhi.
  fold f in Hlo, Hhi.
  assert (Hs0 : (0 <= s)%Z) by apply Z.sqrt_nonneg.
  assert (lower : forall k, (k <= f)%Z -> inject_Z k <= t).
  { intros k Hk. rewrite Zle_Qle in Hk. lra. }
  assert (upper : forall k, (f + 1 <= k)%Z -> t <= inject_Z k).
  { intros k Hk. rewrite Zle_Qle in Hk. lra. }
  clearbody s f t.
  destruct (Z.even s) eqn:Ev.
  - apply Z.even_spec in Ev as [m Hm].
    assert (Em : (s / 2 = m)%Z)
      by (symmetry; apply (Z.div_unique s 2 m 0); lia).
    rewrite Em.
    exists m. split; [apply Qred_correct|]. split.
    + destruct (Z.eq_dec m 0) as [->|Hm0]; [left; reflexivity|].
      right. apply lower. nia.
    + apply upper. nia.
  - assert (Od : Z.odd s = true) by (rewrite <- Z.negb_even, Ev; reflexivity).
    apply Z.odd_spec in Od as [m Hm].
    assert (Em : (s / 2 = m)%Z)
      by (symmetry; apply (Z.div_unique s 2 m 1); lia).
    rewrite Em.
    destruct (Qeq_bool t (inject_Z (s * s)) && Z.even m) eqn:Tie.
    + apply andb_true_iff in Tie as [Tq _]. apply Qeq_bool_eq in Tq.
      exists m. split; [apply Qred_correct|]. split.
      * destruct (Z.eq_dec m 0) as [->|Hm0]; [left; reflexivity|].
        right. apply lower. nia.
      * rewrite Tq. rewrite <- Zle_Qle. nia.
    + exists (m + 1)%Z. split; [apply Qred_correct|]. split.
      * right. apply lower. nia.
      * apply upper. nia.
Qed.

Lemma round2_sqrt_nonneg v : 0 <= round2_sqrt v.
Proof.
  destruct (round2_sqrt_hundredths v) as (n & Hn & ->).
  rewrite Zle_Qle in Hn. unfold Qdiv.
  apply Qmult_le_0_compat; [exact Hn | discriminate].
Qed.

Lemma qmin_le_l a b : qmin a b <= a.
Proof.
  unfold qmin. destruct (Qle_bool a b) eqn:E; [lra|].
  destruct (Qlt_le_dec b a) as [H|H]; [lra|].
  apply Qle_bool_iff in H. congruence.
Qed.

Lemma qmin_le_r a b : qmin a b <= b.
Proof.
  unfold qmin. destruct (Qle_bool a b) eqn:E; [|lra].
  now apply Qle_bool_iff.
Qed.

Lemma qmax_ge_l a b : a <= qmax a b.
Proof.
  unfold qmax. destruct (Qle_bool a b) eqn:E; [|lra].
  now apply Qle_bool_iff.
Qed.

Lemma qmax_ge_r a b : b <= qmax a b.
Proof.
  unfold qmax. destruct (Qle_bool a b) eqn:E; [lra|].
  destruct (Qlt_le_dec b a) as [H|H]; [lra|].
  apply Qle_bool_iff in H. congruence.
Qed.

Lemma fold_qmin_le l a :
  fold_left qmin l a <= a /\ forall x, In x l -> fold_left qmin l a <= x.
Proof.
  revert a; induction l as [|b l IH]; intros a; simpl.
  - split; [lra | contradiction].
  - destruct (IH (qmin a b)) as [H1 H2].
    pose proof (qmin_le_l a b). pose proof (qmin_le_r a b).
    split; [lra|]. intros x [<- | Hx]; [lra | auto].
Qed.

Lemma fold_qmax_ge l a :
  a <= fold_left qmax l a /\ forall x, In x l -> x <= fold_left qmax l a.
Proof.
  revert a; induction l as [|b l IH]; intros a; simpl.
  - split; [lra | contradiction].
  - destruct (IH (qmax a b)) as [H1 H2].
    pose proof (qmax_ge_l a b). pose proof (qmax_ge_r a b).
    split; [lra|]. intros x [<- | Hx]; [lra | auto].
Qed.

Lemma list_min_le l x : In x l -> list_min l <= x.
Proof.
  destruct l as [|a l]; [contradiction|]. simpl.
  destruct (fold_qmin_le l a) as [H1 H2].
  intros [<- | Hx]; auto.
Qed.

Lemma list_max_ge l x : In x l -> x <= list_max l.
Proof.
  destruct l as [|a l]; [contradiction|]. simpl.
  destruct (fold_qmax_ge l a) as [H1 H2].
  intros [<- | Hx]; auto.
Qed.

Lemma insert_sorted_in x y l : In y (insert_sorted x l) -> y = x \/ In y l.
Proof.
  induction l as [|a l IH]; simpl.
  - intros [<- | []]; auto.
  - destruct (Qle_bool x a); simpl.
    + intros [<- | H]; auto.
    + intros [<- | H]; auto. destruct (IH H); auto.
Qed.

Lemma insert_sorted_length x l : length (insert_sorted x l) = S (length l).
Proof.
  induction l as [|a l IH]; simpl; [reflexivity|].
  destruct (Qle_bool x a); simpl; congruence.
Qed.

Lemma sort_in l y : In y (sort l) -> In y l.
Proof.
  induction l as [|a l IH]; simpl; [auto|].
  intros H. apply insert_sorted_in in H as [-> | H]; auto.
Qed.

Lemma sort_length l : length (sort l) = length l.
Proof.
  induction l as [|a l IH]; simpl; [reflexivity|].
  now rewrite insert_sorted_length, IH.
Qed.

Lemma insert_sorted_perm x l : Permutation (x :: l) (insert_sorted x l).
Proof.
  induction l as [|a l IH]; simpl; [reflexivity|].
  destruct (Qle_bool x a); [reflexivity|].
  rewrite perm_swap. now apply perm_skip.
Qed.

(** [sort] rearranges its argument in non-decreasing order. *)
Lemma sort_perm l : Permutation l (sort l).
Proof.
  induction l as [|a l IH]; simpl; [reflexivity|].
  rewrite <- insert_sorted_perm. now apply perm_skip.
Qed.

Lemma insert_sorted_hd x a l :
  a <= x -> HdRel Qle a l -> HdRel Qle a (insert_sorted x l).
Proof.
  intros Hax H. destruct l as [|b l]; simpl.
  - now constructor.
  - inversion H; subst. destruct (Qle_bool x b); now constructor.
Qed.

Lemma insert_sorted_sorted x l :
  Sorted Qle l -> Sorted Qle (insert_sorted x l).
Proof.
  induction 1 as [|a l Hs IH Hd]; simpl.
  - repeat constructor.
  - destruct (Qle_bool x a) eqn:E.
    + constructor; [now constructor|]. constructor. now apply Qle_bool_iff.
    + constructor; [exact IH|]. apply insert_sorted_hd; [|exact Hd].
      destruct (Qlt_le_dec a x) as [H|H]; [lra|].
      apply Qle_bool_iff in H. congruence.
Qed.

Lemma sort_sorted l : Sorted Qle (sort l).
Proof.
  induction l as [|a l IH]; simpl; [constructor|].
  now apply insert_sorted_sorted.
Qed.

(** The median lies between the least and the greatest value. *)
Lemma median_between l :
  l <> [] -> list_min l <= median l /\ median l <= list_max l.
Proof.
  intros Hne. unfold median.
  assert (Hlen : (0 < length (sort l))%nat).
  { rewrite sort_length. destruct l; [congruence | simpl; lia]. }
  assert (Hnth : forall k, (k < length (sort l))%nat ->
                           list_min l <= nth k (sort l) 0 /\
                           nth k (sort l) 0 <= list_max l).
  { intros k Hk. pose proof (sort_in l _ (nth_In (sort l) 0 Hk)) as Hin.
    split; [apply list_min_le | apply list_max_ge]; exact Hin. }
  set (n := length (sort l)) in *.
  destruct (Nat.even n) eqn:Ev.
  - assert (2 <= n)%nat.
    { destruct n as [|[|n']]; [lia | discriminate | lia]. }
    assert (H1 : (n / 2 - 1 < n)%nat) by (pose proof (Nat.div_lt n 2); lia).
    assert (H2 : (n / 2 < n)%nat) by (apply Nat.div_lt; lia).
    destruct (Hnth _ H1), (Hnth _ H2).
    split.
    + apply Qle_shift_div_l; lra.
    + apply Qle_shift_div_r; lra.
  - apply Hnth. apply Nat.div_lt; lia.
Qed.

End Rounding.

(* ------------------------------------------------------------------ *)
(** ** Column statistics                                               *)
(* ------------------------------------------------------------------ *)

Section Statistics.
Import Num Frame Analysis.
Local Open Scope Q_scope.

Lemma dict_set_in {V : Type} (d : list (string * V)) k v e :
  In e (dict_set d k v) -> e = (k, v) \/ In e d.
Proof.
  induction d as [|[k' v'] d IH]; simpl.
  - intros [<- | []]; auto.
  - destruct (String.eqb k' k); simpl.
    + intros [<- | H]; auto.
    + intros [<- | H]; auto. destruct (IH H); auto.
Qed.

(** Every entry of the result belongs to a numeric column that has a
    value, and holds the statistics of its values. *)
Lemma compute_stats_entries df name st :
  In (name, st) (compute_stats df) ->
  exists col, In col df /\ is_numeric col = true /\ col_name col = name /\
              numeric_values col <> [] /\
              st = column_stats (numeric_values col).
Proof.
  unfold compute_stats. destruct (empty (select_numeric df)); [contradiction|].
  set (P := fun e : string * ColumnStats =>
              exists col, In col df /\ is_numeric col = true /\
                          col_name col = fst e /\ numeric_values col <> [] /\
                          snd e = column_stats (numeric_values col)).
  assert (G : forall l acc,
             (forall c, In c l -> In c df /\ is_numeric c = true) ->
             (forall e, In e acc -> P e) ->
             forall e,
               In e (fold_left
                       (fun stats col =>
                          let series := numeric_values col in
                          if (length series =? 0)%nat then stats
                          else dict_set stats (col_name col) (column_stats series))
                       l acc) -> P e).
  { induction l as [|c l IH]; intros acc Hl Hacc e; simpl; [apply Hacc|].
    apply IH; [intros c' Hc'; apply Hl; right; exact Hc'|].
    intros e' He'. destruct (Nat.eqb_spec (length (numeric_values c)) 0).
    - apply Hacc, He'.
    - apply dict_set_in in He' as [-> | He']; [|apply Hacc, He'].
      destruct (Hl c (or_introl eq_refl)) as [Hin Hnum].
      exists c. repeat split; auto.
      intros E. rewrite E in n. apply n. reflexivity. }
  intros H. apply (G (select_numeric df) [] ) in H.
  - exact H.
  - intros c Hc. unfold select_numeric in Hc. apply filter_In in Hc. exact Hc.
  - intros e [].
Qed.

(** C9. Every entry [compute_stats] returns belongs to a numeric column
    with at least one value and satisfies min <= median <= max and
    std >= 0; mean, median, std, min and max have at most two decimals
    and the count is the number of values; and std is 0 when the column
    has fewer than 2 values. *)
Theorem compute_stats_entry_bounds df name st :
  In (name, st) (compute_stats df) ->
  st_min st <= st_median st /\ st_median st <= st_max st /\
  0 <= st_std st /\
  two_decimals (st_mean st) /\ two_decimals (st_median st) /\
  two_decimals (st_std st) /\ two_decimals (st_min st) /\
  two_decimals (st_max st) /\
  (exists col, In col df /\ col_name col = name /\
               st_count st = length (numeric_values col) /\
               (1 <= st_count st)%nat) /\
  ((st_count st < 2)%nat -> st_std st = 0).
Proof.
  intros H.
  apply compute_stats_entries in H as (col & Hin & _ & Hname & Hne & ->).
  set (vals := numeric_values col) in *.
  destruct (median_between vals Hne) as [Hlo Hhi].
  cbn [column_stats st_min st_median st_max st_std st_mean st_count].
  split; [apply py_round_mono, Hlo|].
  split; [apply py_round_mono, Hhi|].
  split.
  { destruct (1 <? length vals)%nat; [apply round2_sqrt_nonneg | lra]. }
  split; [apply py_round_two_decimals|].
  split; [apply py_round_two_decimals|].
  split.
  { destruct (1 <? length vals)%nat.
    - destruct (round2_sqrt_hundredths (variance vals)) as (n & _ & E).
      exists n; exact E.
    - exists 0%Z. reflexivity. }
  split; [apply py_round_two_decimals|].
  split; [apply py_round_two_decimals|].
  split.
  { exists col. repeat split; auto.
    destruct vals; [congruence | simpl; lia]. }
  intros Hc. destruct (Nat.ltb_spec 1 (length vals)); [lia | reflexivity].
Qed.

Lemma compute_stats_entry_bounds_witness :
  compute_stats sales_with_gaps
  = [ ("sales", {| st_mean := 61 # 4; st_median := 61 # 4; st_std := 371 # 50;
                   st_min := 10; st_max := 41 # 2; st_count := 2 |});
      ("returns", {| st_mean := 7; st_median := 7; st_std := 0;
                     st_min := 7; st_max := 7; st_count := 1 |}) ] /\
  (7 <= 7 /\ 7 <= 7 /\ 0 <= 0).
Proof.
  split; [reflexivity|].
  pose proof (compute_stats_entry_bounds sales_with_gaps "returns"
                {| st_mean := 7; st_median := 7; st_std := 0;
                   st_min := 7; st_max := 7; st_count := 1 |}
                (or_intror (or_introl eq_refl))) as (H1 & H2 & H3 & _).
  exact (conj H1 (conj H2 H3)).
Defined.

End Statistics.

(* ------------------------------------------------------------------ *)
(** ** Insights                                                        *)
(* ------------------------------------------------------------------ *)

Section Insights.
Import Num Frame Report Analysis.

Lemma top_contributor_needs_numeric df :
  select_numeric df = [] -> top_contributor df = [].
Proof.
  unfold top_contributor. intros ->.
  destruct (filter _ df); reflexivity.
Qed.

Lemma detect_trends_needs_numeric df :
  select_numeric df = [] -> detect_trends df = [].
Proof. unfold detect_trends. intros ->. reflexivity. Qed.

Lemma generate_insights_nonempty_frame df stats :
  empty df = false ->
  generate_insights df stats =
  ((top_contributor df ++ range_insight stats ++ firstn 2 (detect_trends df))
     ++ [RowCount (nrows df) (length (columns df))])%list.
Proof.
  unfold generate_insights. intros ->. now rewrite <- !app_assoc.
Qed.

(** An empty table gets no insight at all, not even the count. *)
Lemma generate_insights_empty_frame :
  generate_insights [] [] = [] /\
  generate_insights [ {| col_name := "amount"; col_data := Numeric [] |} ] [] = [].
Proof. split; reflexivity. Qed.

(** C3, as amended. For a table with at least one row and one column
    the row/column count sentence is the last element of the list
    [generate_insights] returns, so the list is not empty; when the table
    has no numeric column and no statistics it is the only element. For
    an empty table the list is empty. *)
Theorem generate_insights_count_last df stats :
  empty df = false ->
  last (generate_insights df stats) (RowCount 0 0)
    = RowCount (nrows df) (length (columns df)) /\
  generate_insights df stats <> [] /\
  (select_numeric df = [] ->
   generate_insights df [] = [RowCount (nrows df) (length (columns df))]) /\
  (forall df', empty df' = true -> generate_insights df' stats = []).
Proof.
  intros Hne. rewrite generate_insights_nonempty_frame by exact Hne.
  repeat split.
  - apply last_last.
  - intros E. apply app_eq_nil in E as [_ E]. discriminate.
  - intros Hnum. rewrite generate_insights_nonempty_frame by exact Hne.
    rewrite top_contributor_needs_numeric, detect_trends_needs_numeric by exact Hnum.
    reflexivity.
  - intros df' He. unfold generate_insights. now rewrite He.
Qed.

Lemma generate_insights_count_last_witness :
  last (generate_insights regions []) (RowCount 0 0) = RowCount 3 1 /\
  generate_insights regions [] = [RowCount 3 1].
Proof.
  pose proof (generate_insights_count_last regions [] eq_refl) as (H1 & _ & H3 & _).
  split; [exact H1 | exact (H3 eq_refl)].
Defined.

(** C4, on the code. The column [0, 0, 5, 5] has four values and a
    first-half mean of zero; [detect_trends] does not call it stable: it
    takes the upward branch and divides by the zero mean, so the sentence
    carries an infinite percentage. With [0, 0, -5, -5] the downward
    branch does the same. *)
Theorem detect_trends_zero_first_half :
  first_half_mean [0; 0; 5; 5] == 0 /\
  detect_trends zero_then_five = [TrendUp "x" PosInf] /\
  detect_trends
    [ {| col_name := "x";
         col_data := Numeric [Some (NInt 0); Some (NInt 0);
                              Some (NInt (-5)); Some (NInt (-5))] |} ]
  = [TrendDown "x" PosInf].
Proof. repeat split. Qed.

End Insights.

(* ------------------------------------------------------------------ *)
(** ** The forecaster                                                  *)
(* ------------------------------------------------------------------ *)

Section Forecaster.
Import Num Frame Report Prediction.

Lemma all_missing_sample env c : all_missing c -> dropna_str env c = [].
Proof.
  unfold all_missing, dropna_str. destruct (col_data c); intros ->; reflexivity.
Qed.

(** C10. When the first column of a table has no value at all,
    [detect_time_column] answers that column: its sample is empty, and
    zero matches reach seven tenths of zero. Neither a later column of
    dates nor the keyword fallback is looked at. *)
Theorem detect_time_column_all_missing env c rest :
  all_missing c ->
  looks_like_dates env c = true /\
  detect_time_column env (c :: rest) = Some (col_name c).
Proof.
  intros H.
  assert (L : looks_like_dates env c = true).
  { unfold looks_like_dates. rewrite (all_missing_sample env c H). reflexivity. }
  split; [exact L|].
  unfold detect_time_column. simpl. rewrite L. reflexivity.
Qed.

Lemma detect_time_column_all_missing_witness :
  detect_time_column plain_env notes_then_dates = Some "notes".
Proof.
  exact (proj2 (detect_time_column_all_missing plain_env
                  {| col_name := "notes"; col_data := Object [None; None; None] |}
                  (tl notes_then_dates) eq_refl)).
Defined.

Lemma find_name_in (f : column -> bool) df c :
  find f df = Some c -> In c df.
Proof. intros H. apply find_some in H. tauto. Qed.

Lemma detect_time_column_in env df t :
  detect_time_column env df = Some t ->
  exists c, In c df /\ col_name c = t.
Proof.
  unfold detect_time_column.
  destruct (find (looks_like_dates env) df) as [c|] eqn:F.
  - intros [= <-]. exists c. split; [eapply find_name_in; eauto | reflexivity].
  - match goal with
    | |- context [find ?f df] => destruct (find f df) as [c|] eqn:G
    end; [|intros H; discriminate H].
    intros [= <-]. exists c. split; [eapply find_name_in; eauto | reflexivity].
Qed.

Lemma in_columns_numeric df y :
  In y (columns (select_numeric df)) ->
  exists c, In c df /\ is_numeric c = true /\ col_name c = y.
Proof.
  unfold columns, select_numeric. intros H.
  apply in_map_iff in H as (c & E & H). apply filter_In in H as [H1 H2].
  exists c; auto.
Qed.

Lemma detect_target_column_in df q y :
  detect_target_column df q = Some y ->
  exists c, In c df /\ is_numeric c = true /\ col_name c = y.
Proof.
  unfold detect_target_column.
  destruct (columns (select_numeric df)) as [|first l] eqn:E; [discriminate|].
  destruct (find _ (first :: l)) as [col|] eqn:F.
  - intros [= <-]. apply find_some in F as [F _].
    apply in_columns_numeric. rewrite E. exact F.
  - intros [= <-]. apply in_columns_numeric. rewrite E. left; reflexivity.
Qed.

Lemma get_column_unique df c :
  NoDup (columns df) -> In c df -> get_column df (col_name c) = Some c.
Proof.
  unfold get_column, columns.
  induction df as [|d df IH]; intros ND Hin; [contradiction|].
  simpl in *. inversion ND as [|? ? Hnot ND']; subst.
  destruct Hin as [-> | Hin].
  - now rewrite String.eqb_refl.
  - destruct (String.eqb (col_name d) (col_name c)) eqn:E.
    + apply String.eqb_eq in E. exfalso. apply Hnot. rewrite E.
      apply in_map. exact Hin.
    + apply IH; assumption.
Qed.

Lemma paired_values_length m target :
  (length (paired_values m target) <= length target)%nat.
Proof.
  revert target; induction m as [|b m IH]; intros [|v rest]; simpl; try lia.
  - destruct b; simpl; lia.
  - specialize (IH rest). destruct b, v; simpl; lia.
Qed.

Lemma rectangular_len df c :
  rectangular df -> In c df -> series_len (col_data c) = nrows df.
Proof.
  unfold rectangular. rewrite Forall_forall. intros H Hin. exact (H c Hin).
Qed.

(** C5, as amended. For a table with fewer than 3 rows [predict] always
    fails: with "no time column" when none is detected, else with "no
    numeric column" when the table has none, and with "not enough data
    points" only after both columns were found. *)
Theorem predict_few_rows env df q :
  rectangular df -> NoDup (columns df) -> (nrows df < 3)%nat ->
  predict env df q = Failure (early_failure env df q).
Proof.
  intros R ND Hn. unfold predict, early_failure.
  destruct (detect_time_column env df) as [t|] eqn:T; [|reflexivity].
  destruct (detect_target_column df q) as [y|] eqn:Y; [|reflexivity].
  apply detect_time_column_in in T as (tc & Tin & <-).
  apply detect_target_column_in in Y as (yc & Yin & Ynum & <-).
  rewrite (get_column_unique df tc ND Tin), (get_column_unique df yc ND Yin).
  pose proof (rectangular_len df yc R Yin) as L.
  unfold is_numeric in Ynum.
  destruct (col_data yc) as [target|] eqn:D; [|discriminate].
  simpl in L.
  pose proof (paired_values_length (present tc) target) as P.
  destruct (Nat.ltb_spec (length (paired_values (present tc) target)) 3);
    [reflexivity | lia].
Qed.

Lemma two_labels_nodup : NoDup (columns two_labels).
Proof.
  repeat constructor; simpl; intuition discriminate.
Defined.

Lemma predict_few_rows_witness :
  predict plain_env two_labels "predict amount" = Failure NoTimeColumn.
Proof.
  refine (predict_few_rows plain_env two_labels "predict amount" _ two_labels_nodup _).
  - repeat constructor.
  - simpl; lia.
Defined.

(** A table of two rows that meets "no time column" first: whatever
    pandas does, the answer is not the insufficient-data failure. *)
Lemma predict_few_rows_other_failure :
  (nrows two_labels < 3)%nat /\
  predict plain_env two_labels "predict amount" = Failure NoTimeColumn /\
  ~ (exists env q, predict env two_labels q = Failure NotEnoughData).
Proof.
  split; [simpl; lia|]. split; [reflexivity|].
  intros (env & q & H). vm_compute in H. discriminate.
Qed.

End Forecaster.

(* ------------------------------------------------------------------ *)
(** ** The fitted line                                                 *)
(* ------------------------------------------------------------------ *)

Section LeastSquares.
Import Num Frame Report Prediction.
Local Open Scope Q_scope.

Lemma centered_shift l : centered l = shift (mean l) l.
Proof. reflexivity. Qed.

Lemma qlen_cons x l : qlen (x :: l) == 1 + qlen l.
Proof.
  unfold qlen. cbn [length]. rewrite Nat2Z.inj_succ, <- Z.add_1_l.
  rewrite inject_Z_plus. reflexivity.
Qed.

Lemma qlen_nonneg l : 0 <= qlen l.
Proof.
  unfold qlen. change 0 with (inject_Z 0). rewrite <- Zle_Qle. lia.
Qed.

Lemma qlen_pos l : l <> [] -> 0 < qlen l.
Proof.
  destruct l as [|x l]; [congruence|]. intros _.
  rewrite qlen_cons. pose proof (qlen_nonneg l). lra.
Qed.

Lemma qsum_shift m l : qsum (shift m l) == qsum l - qlen l * m.
Proof.
  induction l as [|x l IH].
  - unfold qlen; simpl. ring.
  - rewrite qlen_cons. cbn [shift map qsum fold_right].
    fold (shift m l). fold (qsum (shift m l)). fold (qsum l).
    rewrite IH. ring.
Qed.

Lemma qsum_centered l : l <> [] -> qsum (centered l) == 0.
Proof.
  intros H. rewrite centered_shift, qsum_shift. unfold mean.
  pose proof (qlen_pos l H). field. lra.
Qed.

Lemma square_nonneg (a : Q) : 0 <= a * a.
Proof. nra. Qed.

Lemma dot_self_nonneg u : 0 <= dot u u.
Proof.
  induction u as [|a u IH]; cbn [dot]; [lra|].
  pose proof (square_nonneg a). lra.
Qed.

Lemma dot_self_zero u : dot u u <= 0 -> forall a, In a u -> a == 0.
Proof.
  induction u as [|b u IH]; cbn [dot]; intros H a Hin; [contradiction|].
  pose proof (square_nonneg b). pose proof (dot_self_nonneg u).
  destruct Hin as [<- | Hin].
  - assert (E : b * b == 0) by lra.
    apply Qmult_integral in E. tauto.
  - apply IH; [lra | exact Hin].
Qed.

(** The index 0..n-1 has spread as soon as it has two points. *)
Lemma arange_spread n :
  (2 <= n)%nat -> 0 < dot (centered (arange n)) (centered (arange n)).
Proof.
  intros Hn. destruct n as [|[|n]]; [lia | lia |].
  destruct (Qlt_le_dec 0 (dot (centered (arange (S (S n))))
                              (centered (arange (S (S n)))))) as [H|H];
    [exact H|].
  exfalso.
  pose proof (dot_self_zero _ H) as Z.
  set (m := mean (arange (S (S n)))) in *.
  assert (H0 : 0 - m == 0).
  { apply Z. unfold centered. fold m. cbn. left. reflexivity. }
  assert (H1 : 1 - m == 0).
  { apply Z. unfold centered. fold m. cbn. right. left. reflexivity. }
  lra.
Qed.

(** The residual sum of any line, split around [mx] and [my]. *)
Lemma sse_expand mx my a b xs :
  forall ys, length xs = length ys ->
  sse xs ys a b ==
    dot (shift my ys) (shift my ys)
    - 2 * a * dot (shift mx xs) (shift my ys)
    + a * a * dot (shift mx xs) (shift mx xs)
    + 2 * (my - b - a * mx) * (qsum (shift my ys) - a * qsum (shift mx xs))
    + qlen xs * ((my - b - a * mx) * (my - b - a * mx)).
Proof.
  induction xs as [|x xs IH]; intros [|y ys] Hlen; try discriminate.
  - unfold qlen; simpl. ring.
  - injection Hlen as Hlen. rewrite qlen_cons.
    cbn [sse shift map dot qsum fold_right].
    fold (shift mx xs). fold (shift my ys).
    fold (qsum (shift mx xs)). fold (qsum (shift my ys)).
    rewrite (IH ys Hlen). ring.
Qed.

(** Around the means the cross terms vanish. *)
Lemma sse_centered a b xs ys :
  length xs = length ys -> xs <> [] ->
  sse xs ys a b ==
    dot (centered ys) (centered ys)
    - 2 * a * dot (centered xs) (centered ys)
    + a * a * dot (centered xs) (centered xs)
    + qlen xs * ((mean ys - b - a * mean xs) * (mean ys - b - a * mean xs)).
Proof.
  intros Hlen Hne.
  assert (Hne' : ys <> []) by (destruct xs, ys; try discriminate; congruence).
  rewrite (sse_expand (mean xs) (mean ys) a b xs ys Hlen).
  rewrite <- !centered_shift.
  rewrite (qsum_centered xs Hne), (qsum_centered ys Hne'). ring.
Qed.

(** No line has a smaller residual sum than the fitted one. *)
Lemma least_squares xs ys a b :
  length xs = length ys ->
  0 < dot (centered xs) (centered xs) ->
  sse xs ys (coef xs ys) (intercept xs ys) <= sse xs ys a b.
Proof.
  intros Hlen Hxx.
  assert (Hne : xs <> []).
  { intros ->. cbn in Hxx. lra. }
  rewrite (sse_centered a b xs ys Hlen Hne).
  rewrite (sse_centered (coef xs ys) (intercept xs ys) xs ys Hlen Hne).
  unfold intercept.
  assert (E : dot (centered xs) (centered ys)
              == coef xs ys * dot (centered xs) (centered xs)).
  { unfold coef. field. lra. }
  generalize dependent (coef xs ys). intros k E.
  rewrite E.
  set (Sxx := dot (centered xs) (centered xs)) in *.
  set (Syy := dot (centered ys) (centered ys)).
  set (c := mean ys - b - a * mean xs).
  pose proof (qlen_nonneg xs) as Hn.
  assert (H1 : 0 <= Sxx * ((a - k) * (a - k)))
    by (apply Qmult_le_0_compat; [lra | apply square_nonneg]).
  assert (H2 : 0 <= qlen xs * (c * c))
    by (apply Qmult_le_0_compat; [lra | apply square_nonneg]).
  assert (H3 : (mean ys - (mean ys - k * mean xs) - k * mean xs) == 0) by ring.
  rewrite H3. lra.
Qed.

Lemma arange_length n : length (arange n) = n.
Proof. unfold arange. now rewrite length_map, length_seq. Qed.

Lemma classify_slope_spec slope :
  (classify_slope slope = upward <-> 0 < slope) /\
  (classify_slope slope = downward <-> slope < 0) /\
  (classify_slope slope = stable <-> slope == 0).
Proof.
  unfold classify_slope.
  destruct (Qcompare_spec slope 0) as [H|H|H]; repeat split;
    try discriminate; try reflexivity; intros; lra.
Qed.

Lemma round_half_even_comp x y : x == y -> round_half_even x = round_half_even y.
Proof.
  intros E. unfold round_half_even.
  rewrite (Qfloor_comp x y E).
  assert (C : Qcompare (x - inject_Z (Qfloor y)) (1 # 2)
              = Qcompare (y - inject_Z (Qfloor y)) (1 # 2)).
  { apply Qcompare_comp; [|reflexivity]. rewrite E. reflexivity. }
  now rewrite C.
Qed.

Lemma py_round_comp x y n : x == y -> py_round x n = py_round y n.
Proof.
  intros E. unfold py_round. apply Qred_complete.
  rewrite (round_half_even_comp (x * pow10 n) (y * pow10 n)); [reflexivity|].
  now rewrite E.
Qed.

(** What [predict] answers once both columns are found and three paired
    rows remain. *)
Lemma predict_success env df q time_col target_col tc yc target :
  detect_time_column env df = Some time_col ->
  detect_target_column df q = Some target_col ->
  time_col <> target_col ->
  get_column df time_col = Some tc ->
  get_column df target_col = Some yc ->
  col_data yc = Numeric target ->
  (3 <= length (paired_values (present tc) target))%nat ->
  predict env df q
  = Success (fit_and_report target_col (paired_values (present tc) target)).
Proof.
  intros T Y Hne Gt Gy D Hlen. unfold predict.
  rewrite T, Y, Gt, Gy, D.
  destruct (Nat.ltb_spec (length (paired_values (present tc) target)) 3); [lia|].
  apply String.eqb_neq in Hne. now rewrite Hne.
Qed.

(** No forecast comes out when one column is time column and target. *)
Lemma predict_same_column env df q c f :
  detect_time_column env df = Some c ->
  detect_target_column df q = Some c ->
  predict env df q <> Success f.
Proof.
  intros T Y. unfold predict. rewrite T, Y.
  destruct (get_column df c) as [col|]; [|discriminate].
  destruct (col_data col) as [vals|]; [|discriminate].
  destruct (length (paired_values (present col) vals) <? 3)%nat; [discriminate|].
  rewrite String.eqb_refl. discriminate.
Qed.

(** C8. When the column detected as time column is also the target,
    [predict] returns no fit at all. The table of yearly sales has the
    numeric columns 'year' and 'sales': 'year' is the time column by its
    4-digit values and the target by the word 'year' of the question
    (it is also the first numeric column), the four rows pass the
    row-count guard, and the answer is the failure of the [except]
    branch, where the least-squares line of the target values over the
    index 0..3 has slope 1 and value 2024 at index 4, trend 'upward'.
    The series 10, 20, 30, 40 in a single column named 'year' fails in
    the same way, where its line has slope 10 and value 50 at index 4. *)
Theorem predict_same_column_fails :
  (forall env df q c f,
      detect_time_column env df = Some c ->
      detect_target_column df q = Some c ->
      predict env df q <> Success f) /\
  detect_time_column plain_env yearly_sales = Some "year" /\
  detect_target_column yearly_sales "predict sales for next year"
  = Some "year" /\
  predict plain_env yearly_sales "predict sales for next year"
  = Failure PredictionFailed /\
  (let y := [2020; 2021; 2022; 2023] in
   coef (arange 4) y == 1 /\
   predicted_value (fit_and_report "year" y) = 2024 /\
   trend_tag (fit_and_report "year" y) = upward) /\
  detect_time_column plain_env year_series = Some "year" /\
  detect_target_column year_series "forecast" = Some "year" /\
  predict plain_env year_series "forecast" = Failure PredictionFailed /\
  (let y := [10; 20; 30; 40] in
   coef (arange 4) y == 10 /\
   predicted_value (fit_and_report "year" y) = 50 /\
   trend_tag (fit_and_report "year" y) = upward).
Proof.
  split; [exact predict_same_column|].
  repeat split; reflexivity.
Qed.

(** X24. Once a time column and a different numeric target are found and
    at least 3 paired rows remain, [predict] fits the target values [y]
    against the index 0..n-1: the fitted line has the least sum of
    squared residuals of all lines, the reported value is the line at
    index n rounded to 2 decimals, and the trend is 'upward',
    'downward' or 'stable' as the slope is positive, negative or zero.
    For y = [10,20,30,40] the slope is 10, the value at index 4 is 50,
    R2 is 1 and the trend is 'upward'. *)
Theorem predict_fits_index_line :
  (forall env df q time_col target_col tc yc target,
      detect_time_column env df = Some time_col ->
      detect_target_column df q = Some target_col ->
      time_col <> target_col ->
      get_column df time_col = Some tc ->
      get_column df target_col = Some yc ->
      col_data yc = Numeric target ->
      let y := paired_values (present tc) target in
      let X := arange (length y) in
      (3 <= length y)%nat ->
      exists f,
        predict env df q = Success f /\
        (forall a b, sse X y (coef X y) (intercept X y) <= sse X y a b) /\
        predicted_value f
          = py_round (intercept X y + coef X y * inject_Z (Z.of_nat (length y))) 2 /\
        trend_tag f = classify_slope (coef X y)) /\
  (forall slope,
      (classify_slope slope = upward <-> 0 < slope) /\
      (classify_slope slope = downward <-> slope < 0) /\
      (classify_slope slope = stable <-> slope == 0)) /\
  (let y := [10; 20; 30; 40] in
   let X := arange 4 in
   coef X y == 10 /\
   predict_at X y 4 == 50 /\
   r2_score y (map (predict_at X y) X) == 1 /\
   classify_slope (coef X y) = upward /\
   predicted_value (fit_and_report "sales" y) = 50 /\
   confidence (fit_and_report "sales" y) = 1 /\
   trend_tag (fit_and_report "sales" y) = upward).
Proof.
  split; [|split].
  - intros env df q time_col target_col tc yc target T Y Hne Gt Gy D y X Hlen.
    exists (fit_and_report target_col y). split; [|split; [|split]].
    + exact (predict_success env df q time_col target_col tc yc target
               T Y Hne Gt Gy D Hlen).
    + intros a b. apply least_squares.
      * unfold X. apply arange_length.
      * unfold X. apply arange_spread. lia.
    + cbn [fit_and_report predicted_value]. apply py_round_comp.
      rewrite Qred_correct. reflexivity.
    + reflexivity.
  - exact classify_slope_spec.
  - cbv zeta. repeat split.
Qed.

Lemma predict_fits_index_line_witness :
  exists f,
    predict plain_env monthly_sales "forecast total sales" = Success f /\
    (forall a b,
        sse (arange 4) [10; 20; 30; 40]
            (coef (arange 4) [10; 20; 30; 40])
            (intercept (arange 4) [10; 20; 30; 40])
        <= sse (arange 4) [10; 20; 30; 40] a b) /\
    predicted_value f = 50 /\
    trend_tag f = upward.
Proof.
  destruct (proj1 predict_fits_index_line plain_env monthly_sales
              "forecast total sales" "month" "total_sales"
              month_column sales_column
              [Some (NInt 10); Some (NInt 20); Some (NInt 30); Some (NInt 40)])
    as (f & Hf & Hls & Hv & Ht);
    try reflexivity; try discriminate.
  - cbv; lia.
  - exists f. split; [exact Hf|]. split; [exact Hls|].
    split; [rewrite Hv | rewrite Ht]; reflexivity.
Defined.

End LeastSquares.

(* ------------------------------------------------------------------ *)
(** ** Chart selection                                                 *)
(* ------------------------------------------------------------------ *)

Section ChartShape.
Import Frame Charts.

Lemma nonzero_rows_not_empty c rest :
  nrows (c :: rest) <> 0%nat -> empty (c :: rest) = false.
Proof. unfold empty. intros H. now apply Nat.eqb_neq. Qed.

(** With two columns or more, more than 15 rows always give a line. *)
Lemma many_rows_line env a b rest :
  (15 < nrows (a :: b :: rest))%nat ->
  detect_chart_type env (a :: b :: rest) = line.
Proof.
  intros H. unfold detect_chart_type.
  rewrite nonzero_rows_not_empty by lia.
  assert (E6 : (nrows (a :: b :: rest) <=? 6)%nat = false)
    by (apply Nat.leb_gt; lia).
  assert (E15 : (15 <? nrows (a :: b :: rest))%nat = true)
    by (apply Nat.ltb_lt; lia).
  rewrite E6, E15.
  cbn [columns map length Nat.ltb Nat.leb Nat.eqb orb andb].
  destruct (is_time env (astype_str env a)); reflexivity.
Qed.

Lemma single_numeric_histogram env c :
  is_numeric c = true -> nrows [c] <> 0%nat ->
  detect_chart_type env [c] = histogram.
Proof.
  intros Hnum Hrows. unfold detect_chart_type.
  rewrite nonzero_rows_not_empty by exact Hrows.
  unfold select_numeric. cbn [filter]. rewrite Hnum. reflexivity.
Qed.

Lemma small_category_numeric_pie env a b :
  nrows [a; b] = 5%nat -> is_numeric a = false -> is_numeric b = true ->
  col_name a <> col_name b ->
  is_time env (astype_str env a) = false ->
  detect_chart_type env [a; b] = pie.
Proof.
  intros Hrows Ha Hb Hne Ht. unfold detect_chart_type.
  rewrite nonzero_rows_not_empty by (rewrite Hrows; discriminate).
  unfold select_numeric. cbn [filter]. rewrite Ha, Hb, Hrows.
  cbn [columns map length Nat.ltb Nat.leb Nat.eqb orb andb filter mem existsb].
  rewrite Ht.
  apply String.eqb_neq in Hne. rewrite Hne, String.eqb_refl.
  reflexivity.
Qed.

(** C2, as amended. [detect_chart_type] answers 'line' for every
    two-column table of 20 rows (the rule for more than 15 rows comes
    before the bar default), 'histogram' for a table of one numeric
    column with at least one row, and 'pie' for a 5-row table of a
    category column followed by a numeric column when the category
    values are not read as dates. *)
Theorem detect_chart_type_shapes env :
  (forall a b, nrows [a; b] = 20%nat -> detect_chart_type env [a; b] = line) /\
  (forall c, is_numeric c = true -> nrows [c] <> 0%nat ->
             detect_chart_type env [c] = histogram) /\
  (forall a b, nrows [a; b] = 5%nat ->
               is_numeric a = false -> is_numeric b = true ->
               col_name a <> col_name b ->
               is_time env (astype_str env a) = false ->
               detect_chart_type env [a; b] = pie).
Proof.
  repeat split.
  - intros a b H. apply many_rows_line. rewrite H. lia.
  - apply single_numeric_histogram.
  - apply small_category_numeric_pie.
Qed.

Lemma detect_chart_type_shapes_witness :
  detect_chart_type plain_env twenty_products = line /\
  detect_chart_type plain_env one_measure = histogram /\
  detect_chart_type plain_env five_regions = pie.
Proof.
  pose proof (detect_chart_type_shapes plain_env) as (H1 & H2 & H3).
  split; [|split].
  - apply H1. reflexivity.
  - apply H2; [reflexivity | discriminate].
  - apply H3; try reflexivity. discriminate.
Defined.

(** A 20-row table of a text column that is no date and a numeric
    column: the fallback patterns reject the text, and whatever the
    flexible parser says the answer is never 'bar'. Besides, a numeric
    column without rows is never answered 'histogram', and five month
    names with a numeric column are never answered 'pie'. *)
Lemma twenty_rows_not_bar :
  nrows twenty_products = 20%nat /\
  forallb (fun v => existsb (fun p => Re.re_match p v) time_patterns)
          ["p01"; "p02"; "p03"] = false /\
  ~ (exists env, detect_chart_type env twenty_products = bar) /\
  ~ (exists env,
        detect_chart_type env [ {| col_name := "revenue"; col_data := ints [] |} ]
        = histogram) /\
  ~ (exists env, detect_chart_type env five_months = pie).
Proof.
  split; [reflexivity|]. split; [vm_compute; reflexivity|]. repeat split.
  - intros (env & H). unfold twenty_products in H.
    rewrite many_rows_line in H by (simpl; lia).
    discriminate.
  - intros (env & H). discriminate.
  - intros ([parse fstr] & H). vm_compute in H.
    destruct (parse _); discriminate.
Qed.

Lemma line_or_bar_figure env x second rest ct :
  ct = line \/ ct = bar ->
  nrows (x :: second :: rest) <> 0%nat ->
  exists fig,
    generate_chart env (x :: second :: rest) (Some ct) = Some fig /\
    is_line_or_bar fig = true /\
    fig_x fig = col_name x /\
    fig_traces fig = firstn 5 (y_columns (x :: second :: rest)).
Proof.
  intros Hct Hrows. unfold generate_chart, y_columns.
  rewrite nonzero_rows_not_empty by exact Hrows.
  set (df := x :: second :: rest).
  set (num_cols := columns (select_numeric df)).
  cbn [columns map length Nat.ltb Nat.leb orb andb df nth_name nth].
  destruct Hct as [-> | ->].
  - destruct num_cols as [|n ns] eqn:E.
    + cbn. eexists; repeat split.
    + cbn [length Nat.leb andb is_empty_list].
      destruct (negb _); eexists; repeat split.
  - eexists; repeat split.
Qed.

(** C7, as amended. Asked for a line or a bar chart on a table with
    rows and at least two columns, [generate_chart] always builds a
    figure (it never fails on many numeric columns); its x axis is the
    first column; it has at most 5 series; and when the first column is
    not numeric the series are the numeric columns in order, cut after
    the fifth, or the second column alone when no column is numeric. *)
Theorem line_bar_roles env x second rest ct :
  ct = line \/ ct = bar ->
  nrows (x :: second :: rest) <> 0%nat ->
  exists fig,
    generate_chart env (x :: second :: rest) (Some ct) = Some fig /\
    fig_x fig = col_name x /\
    (length (fig_traces fig) <= 5)%nat /\
    (is_numeric x = false ->
     fig_traces fig =
     firstn 5 (if is_empty_list (columns (select_numeric (second :: rest)))
               then [col_name second]
               else columns (select_numeric (second :: rest)))).
Proof.
  intros Hct Hrows.
  destruct (line_or_bar_figure env x second rest ct Hct Hrows)
    as (fig & Hfig & _ & Hx & Htr).
  exists fig. repeat split; auto.
  - rewrite Htr. apply firstn_le_length.
  - intros Hx0. rewrite Htr. unfold y_columns, select_numeric.
    cbn [filter]. rewrite Hx0. reflexivity.
Qed.

Lemma line_bar_roles_witness :
  exists fig,
    generate_chart plain_env seven_measures (Some line) = Some fig /\
    fig_x fig = "shop" /\
    (length (fig_traces fig) <= 5)%nat /\
    fig_traces fig = ["m1"; "m2"; "m3"; "m4"; "m5"].
Proof.
  destruct (line_bar_roles plain_env
              {| col_name := "shop"; col_data := texts ["a"; "b"] |}
              {| col_name := "m1"; col_data := ints [1; 2]%Z |}
              (tl (tl seven_measures)) line (or_introl eq_refl))
    as (fig & Hfig & Hx & Hlen & Htr).
  - discriminate.
  - exists fig. split; [exact Hfig|]. split; [exact Hx|].
    split; [exact Hlen | exact (Htr eq_refl)].
Defined.

(** A bar chart of a table without numeric columns plots the second
    column: its series are not "all numeric columns", which are none. *)
Lemma bar_without_numeric_columns :
  columns (select_numeric two_text_columns) = [] /\
  generate_chart plain_env two_text_columns (Some bar)
  = Some (BarFig "region" ["city"]) /\
  ~ (exists env fig,
        generate_chart env two_text_columns (Some bar) = Some fig /\
        fig_traces fig = columns (select_numeric two_text_columns)).
Proof.
  split; [reflexivity|]. split; [reflexivity|].
  intros (env & fig & H & T). vm_compute in H. injection H as <-.
  discriminate T.
Qed.

End ChartShape.

(* ------------------------------------------------------------------ *)
(** ** The pipeline                                                    *)
(* ------------------------------------------------------------------ *)

Section Pipeline.
Import Num Frame Report Analysis Charts Prediction Database Main.

Lemma analyze_data_done env question sql table full :
  validate_sql sql = true ->
  asks_prediction question = true ->
  exists r,
    analyze_data env question sql (Some table) (Some full) = Done r /\
    prediction_result r = Some (predict env full question) /\
    insights r =
      if has_predicted_value (predict env full question)
      then (base_insights table ++ message_of (predict env full question))%list
      else base_insights table.
Proof.
  intros Hsafe Hask. unfold analyze_data, base_insights.
  rewrite Hsafe, Hask. cbn [negb].
  eexists. split; [reflexivity|]. cbn [prediction_result insights fst snd].
  split; [reflexivity|].
  destruct (nrows table =? 0)%nat; reflexivity.
Qed.

(** C6, as amended. When the question holds a prediction keyword (and
    the query is safe and ran, and the full table was read), [predict]
    is run on the full table, not on the query result; when it succeeds
    with a predicted value other than zero its message is appended at
    the end of the insight list; when it fails the insight list is left
    as the insight generator built it. *)
Theorem forecast_on_full_table env question sql table full :
  validate_sql sql = true ->
  asks_prediction question = true ->
  exists r,
    analyze_data env question sql (Some table) (Some full) = Done r /\
    prediction_result r = Some (predict env full question) /\
    (forall f, predict env full question = Success f ->
               ~ predicted_value f == 0 ->
               insights r = (base_insights table ++ [message f])%list) /\
    (forall why, predict env full question = Failure why ->
                 insights r = base_insights table).
Proof.
  intros Hsafe Hask.
  destruct (analyze_data_done env question sql table full Hsafe Hask)
    as (r & Hr & Hp & Hi).
  exists r. repeat split; auto.
  - intros f Hf Hnz. rewrite Hi, Hf. cbn [has_predicted_value message_of].
    destruct (Qeq_bool (predicted_value f) 0) eqn:E; [|reflexivity].
    apply Qeq_bool_eq in E. contradiction.
  - intros why Hw. rewrite Hi, Hw. reflexivity.
Qed.

Lemma forecast_on_full_table_witness :
  exists r,
    analyze_data plain_env "forecast total sales"
                 "SELECT * FROM data WHERE month = '2024-01'"
                 (Some january_only) (Some monthly_sales) = Done r /\
    prediction_result r
      = Some (predict plain_env monthly_sales "forecast total sales") /\
    insights r = (base_insights january_only
                  ++ [Forecast "total sales" 50 upward 1])%list.
Proof.
  destruct (forecast_on_full_table plain_env "forecast total sales"
              "SELECT * FROM data WHERE month = '2024-01'"
              january_only monthly_sales eq_refl eq_refl)
    as (r & Hr & Hp & Hs & _).
  exists r. split; [exact Hr|]. split; [exact Hp|].
  eapply (Hs _ eq_refl). vm_compute. discriminate.
Defined.

(** A question that asks for a forecast over a table without a time
    column: the forecaster fails, and no sentence of its own ends the
    insight list, whatever pandas does. *)
Lemma forecast_failure_adds_no_sentence :
  asks_prediction "predict the next amount" = true /\
  validate_sql "SELECT * FROM data" = true /\
  predict plain_env unnamed_series "predict the next amount"
  = Failure NoTimeColumn /\
  ~ (exists env r target predicted tr r2,
        analyze_data env "predict the next amount" "SELECT * FROM data"
                     (Some unnamed_series) (Some unnamed_series) = Done r /\
        last (insights r) (RowCount 0 0) = Forecast target predicted tr r2).
Proof.
  split; [reflexivity|]. split; [reflexivity|]. split; [reflexivity|].
  intros (env & r & target & predicted & tr & r2 & H & L).
  destruct (analyze_data_done env "predict the next amount"
              "SELECT * FROM data" unnamed_series unnamed_series
              eq_refl eq_refl) as (r' & Hr & _ & Hi).
  rewrite Hr in H. injection H as <-.
  rewrite Hi in L. vm_compute in L. discriminate L.
Qed.

End Pipeline.


(* ------------------------------------------------------------------ *)
(** ** Text handling around the database and the translator            *)
(* ------------------------------------------------------------------ *)

Section TextHandling.
Import Database Llm.

Ltac by_cases_on_char c :=
  destruct c as [[] [] [] [] [] [] [] []]; reflexivity.

Lemma upper_char_not_space c : is_space (upper_char c) = is_space c.
Proof. by_cases_on_char c. Qed.

Lemma lower_char_not_space c : is_space (lower_char c) = is_space c.
Proof. by_cases_on_char c. Qed.

Lemma upper_upper_char c : upper_char (upper_char c) = upper_char c.
Proof. by_cases_on_char c. Qed.

Lemma upper_lower_char c : upper_char (lower_char c) = upper_char c.
Proof. by_cases_on_char c. Qed.

Lemma map_string_compose f g s :
  map_string f (map_string g s) = map_string (fun c => f (g c)) s.
Proof. induction s as [|c s IH]; simpl; congruence. Qed.

Lemma map_string_ext f g s :
  (forall c, f c = g c) -> map_string f s = map_string g s.
Proof. intros H. induction s as [|c s IH]; simpl; congruence. Qed.

Lemma is_empty_map f s : is_empty (map_string f s) = is_empty s.
Proof. destruct s; reflexivity. Qed.

Lemma lstrip_map f s :
  (forall c, is_space (f c) = is_space c) ->
  lstrip (map_string f s) = map_string f (lstrip s).
Proof.
  intros H. induction s as [|c s IH]; simpl; [reflexivity|].
  rewrite H. destruct (is_space c); [exact IH | reflexivity].
Qed.

Lemma rstrip_map f s :
  (forall c, is_space (f c) = is_space c) ->
  rstrip (map_string f s) = map_string f (rstrip s).
Proof.
  intros H. induction s as [|c s IH]; simpl; [reflexivity|].
  rewrite H, IH, is_empty_map.
  destruct (is_space c && is_empty (rstrip s)); reflexivity.
Qed.

(** Trimming commutes with a character map that keeps spaces spaces. *)
Lemma strip_map f s :
  (forall c, is_space (f c) = is_space c) ->
  strip (map_string f s) = map_string f (strip s).
Proof.
  intros H. unfold strip. now rewrite lstrip_map, rstrip_map.
Qed.

Lemma normalized_upper sql : normalized (upper sql) = normalized sql.
Proof.
  unfold normalized, upper.
  rewrite (strip_map upper_char sql upper_char_not_space).
  rewrite map_string_compose. apply map_string_ext, upper_upper_char.
Qed.

Lemma normalized_lower sql : normalized (lower sql) = normalized sql.
Proof.
  unfold normalized, upper, lower.
  rewrite (strip_map lower_char sql lower_char_not_space).
  rewrite map_string_compose. apply map_string_ext, upper_lower_char.
Qed.

(** X1. The verdict of [validate_sql] does not depend on letter case:
    the query written in upper case, or in lower case, is classified as
    the query itself. *)
Theorem validate_sql_ignores_case sql :
  validate_sql (upper sql) = validate_sql sql /\
  validate_sql (lower sql) = validate_sql sql.
Proof.
  unfold validate_sql.
  change (upper (strip (upper sql))) with (normalized (upper sql)).
  change (upper (strip (lower sql))) with (normalized (lower sql)).
  rewrite normalized_upper, normalized_lower. split; reflexivity.
Qed.

Lemma cleaned_char_ident c :
  ident_char (lower_char (if is_word c then c else "_"%char)) = true.
Proof. by_cases_on_char c. Qed.

Lemma ident_char_fixed c :
  ident_char c = true ->
  lower_char (if is_word c then c else "_"%char) = c.
Proof.
  destruct c as [[] [] [] [] [] [] [] []]; intros H;
    first [reflexivity | discriminate H].
Qed.

Lemma ident_char_not_space c : ident_char c = true -> is_space c = false.
Proof.
  destruct c as [[] [] [] [] [] [] [] []]; intros H;
    first [reflexivity | discriminate H].
Qed.

Lemma all_chars_map p f s :
  (forall c, p (f c) = true) -> all_chars p (map_string f s) = true.
Proof.
  intros H. induction s as [|c s IH]; simpl; [reflexivity|].
  now rewrite H, IH.
Qed.

Lemma map_string_fixed p f s :
  (forall c, p c = true -> f c = c) ->
  all_chars p s = true -> map_string f s = s.
Proof.
  intros H. induction s as [|c s IH]; simpl; [reflexivity|].
  intros A. apply andb_true_iff in A as [Hc Hs].
  now rewrite (H c Hc), (IH Hs).
Qed.

Lemma lstrip_no_space s :
  all_chars (fun c => negb (is_space c)) s = true -> lstrip s = s.
Proof.
  destruct s as [|c s]; simpl; [reflexivity|].
  intros A. apply andb_true_iff in A as [Hc _].
  apply negb_true_iff in Hc. now rewrite Hc.
Qed.

Lemma rstrip_no_space s :
  all_chars (fun c => negb (is_space c)) s = true -> rstrip s = s.
Proof.
  induction s as [|c s IH]; simpl; [reflexivity|].
  intros A. apply andb_true_iff in A as [Hc Hs].
  apply negb_true_iff in Hc. now rewrite Hc, (IH Hs).
Qed.

Lemma all_chars_weaken (p q : ascii -> bool) s :
  (forall c, p c = true -> q c = true) ->
  all_chars p s = true -> all_chars q s = true.
Proof.
  intros H. induction s as [|c s IH]; simpl; [reflexivity|].
  intros A. apply andb_true_iff in A as [Hc Hs].
  now rewrite (H c Hc), (IH Hs).
Qed.

Lemma map_string_length f s :
  String.length (map_string f s) = String.length s.
Proof. induction s as [|c s IH]; simpl; congruence. Qed.

Lemma clean_column_name_chars col :
  all_chars ident_char (clean_column_name col) = true.
Proof.
  unfold clean_column_name, lower. rewrite map_string_compose.
  apply all_chars_map. intros c. apply cleaned_char_ident.
Qed.

(** X2. A cleaned CSV header holds only [a-z], [0-9] and [_], is as
    long as the trimmed header, and cleaning it again changes
    nothing. *)
Theorem clean_column_name_identifier col :
  all_chars ident_char (clean_column_name col) = true /\
  String.length (clean_column_name col) = String.length (strip col) /\
  clean_column_name (clean_column_name col) = clean_column_name col.
Proof.
  split; [apply clean_column_name_chars|]. split.
  - unfold clean_column_name, lower. now rewrite !map_string_length.
  - pose proof (clean_column_name_chars col) as A.
    set (n := clean_column_name col) in *.
    assert (S : all_chars (fun c => negb (is_space c)) n = true).
    { apply (all_chars_weaken ident_char); [|exact A].
      intros c Hc. now rewrite (ident_char_not_space c Hc). }
    unfold clean_column_name at 1, strip, lower.
    rewrite (lstrip_no_space n S), (rstrip_no_space n S).
    rewrite map_string_compose.
    apply (map_string_fixed ident_char); [|exact A].
    intros c Hc. apply ident_char_fixed, Hc.
Qed.

Lemma before_last_dot_none s :
  all_chars not_dot s = true -> before_last_dot s = None.
Proof.
  induction s as [|c s IH]; simpl; [reflexivity|].
  intros A. apply andb_true_iff in A as [Hc Hs].
  rewrite (IH Hs). unfold not_dot in Hc. apply negb_true_iff in Hc.
  now rewrite Hc.
Qed.

Lemma before_last_dot_split stem ext :
  all_chars not_dot ext = true ->
  before_last_dot (stem ++ String "."%char ext) = Some stem.
Proof.
  intros H. induction stem as [|c stem IH]; simpl.
  - now rewrite (before_last_dot_none ext H).
  - now rewrite IH.
Qed.

(** X3. The database path replaces the last extension of the file path
    by [.db]: [stem.ext] gives [stem.db] when [ext] holds no dot (so
    [name.csv] gives [name.db], dots in [name] included), and a path
    without any dot gets [.db] appended. *)
Theorem db_path_replaces_extension :
  (forall stem ext, all_chars not_dot ext = true ->
                    db_path (stem ++ String "."%char ext) = stem ++ ".db") /\
  (forall stem, db_path (stem ++ ".csv") = stem ++ ".db") /\
  (forall path, all_chars not_dot path = true ->
                db_path path = path ++ ".db").
Proof.
  repeat split.
  - intros stem ext H. unfold db_path.
    now rewrite (before_last_dot_split stem ext H).
  - intros stem. unfold db_path.
    now rewrite (before_last_dot_split stem "csv" eq_refl).
  - intros path H. unfold db_path. now rewrite (before_last_dot_none path H).
Qed.

Lemma db_path_replaces_extension_witness :
  db_path "uploads/1700000000_sales.2024.csv" = "uploads/1700000000_sales.2024.db" /\
  db_path "uploads/plain" = "uploads/plain.db".
Proof.
  destruct db_path_replaces_extension as (H1 & _ & H3). split.
  - exact (H1 "uploads/1700000000_sales.2024" "csv" eq_refl).
  - exact (H3 "uploads/plain" eq_refl).
Defined.

Lemma last_char_nonempty p q s : s <> "" -> last_char p s = last_char q s.
Proof. destruct s; [congruence | reflexivity]. Qed.

Lemma is_empty_spec s : is_empty s = true <-> s = "".
Proof. destruct s; simpl; split; congruence. Qed.

Lemma rstrip_char_end ch s : last_char None (rstrip_char ch s) <> Some ch.
Proof.
  induction s as [|c s IH]; simpl; [discriminate|].
  destruct (Ascii.eqb c ch && is_empty (rstrip_char ch s)) eqn:E;
    [discriminate|].
  simpl. destruct (rstrip_char ch s) as [|d r] eqn:R.
  - simpl in *. rewrite andb_true_r in E. apply Ascii.eqb_neq in E. congruence.
  - rewrite (last_char_nonempty (Some c) None); [exact IH | discriminate].
Qed.

Lemma rstrip_char_keep ch s :
  last_char None s <> Some ch -> rstrip_char ch s = s.
Proof.
  induction s as [|c s IH]; simpl; [reflexivity|].
  intros H. destruct s as [|d s'].
  - simpl in *. destruct (Ascii.eqb_spec c ch); [congruence | reflexivity].
  - rewrite IH.
    + now rewrite andb_false_r.
    + rewrite <- (last_char_nonempty (Some c) None); [exact H | discriminate].
Qed.

(** X4. The query [nl_to_sql] returns never ends with a semicolon,
    whatever the completion's text was; a failed request gives no
    query. *)
Theorem nl_to_sql_no_trailing_semicolon :
  (forall content,
      exists sql, nl_to_sql (Some content) = Some sql /\
                  last_char None sql <> Some ";"%char) /\
  nl_to_sql None = None.
Proof.
  split; [|reflexivity].
  intros content. exists (clean_reply content). split; [reflexivity|].
  apply rstrip_char_end.
Qed.

Lemma rstrip_last s c :
  last_char None s = Some c -> is_space c = false -> rstrip s = s.
Proof.
  intros L Hc. induction s as [|d s IH]; simpl; [reflexivity|].
  destruct s as [|e s'].
  - simpl in *. injection L as ->. now rewrite Hc.
  - rewrite IH.
    + now rewrite andb_false_r.
    + rewrite <- (last_char_nonempty (Some d) None); [exact L | discriminate].
Qed.

Lemma drop_while_tag tag rest :
  all_chars is_word tag = true ->
  drop_while is_word (tag ++ String newline rest) = String newline rest.
Proof.
  intros H. induction tag as [|c tag IH]; simpl; [reflexivity|].
  simpl in H. apply andb_true_iff in H as [Hc Ht].
  now rewrite Hc, (IH Ht).
Qed.

Lemma append_empty_r (s : string) : s ++ "" = s.
Proof. induction s; simpl; congruence. Qed.

Lemma append_assoc3 (a b c : string) : (a ++ b) ++ c = a ++ (b ++ c).
Proof. induction a; simpl; congruence. Qed.

Lemma rev_append a b : rev (a ++ b) = rev b ++ rev a.
Proof.
  induction a as [|c a IH]; simpl.
  - now rewrite append_empty_r.
  - now rewrite IH, append_assoc3.
Qed.

Lemma rev_rev s : rev (rev s) = s.
Proof.
  induction s as [|c s IH]; simpl; [reflexivity|].
  rewrite rev_append, IH. reflexivity.
Qed.

(** A reply of the form: fence, language tag, newline, query, newline,
    fence. *)
Lemma fenced_reply_strip tag q :
  strip (fence ++ tag ++ String newline (q ++ String newline fence))
  = fence ++ tag ++ String newline (q ++ String newline fence).
Proof.
  unfold strip.
  assert (L : lstrip (fence ++ tag ++ String newline (q ++ String newline fence))
              = fence ++ tag ++ String newline (q ++ String newline fence))
    by reflexivity.
  rewrite L. apply (rstrip_last _ "`"%char); [|reflexivity].
  rewrite !last_char_app. simpl. rewrite last_char_app. reflexivity.
Qed.

(** X5. A fenced reply gives back the query inside it: for a language
    tag of word characters (possibly empty) and a query [q] that is
    trimmed and does not end with a semicolon, the reply
    fence-tag-newline-q-newline-fence is cleaned to [q]. *)
Theorem nl_to_sql_unwraps_fence tag q :
  all_chars is_word tag = true ->
  strip q = q ->
  last_char None q <> Some ";"%char ->
  nl_to_sql (Some (fence ++ tag ++ String newline (q ++ String newline fence)))
  = Some q.
Proof.
  intros Htag Hq Hsemi. unfold nl_to_sql, clean_reply.
  rewrite fenced_reply_strip.
  assert (O : strip_opening_fence
                (fence ++ tag ++ String newline (q ++ String newline fence))
              = q ++ String newline fence).
  { unfold strip_opening_fence. cbn [fence append startswith Ascii.eqb
      Bool.eqb andb skip].
    rewrite (drop_while_tag tag _ Htag). reflexivity. }
  rewrite O.
  assert (C : strip_closing_fence (q ++ String newline fence) = q).
  { unfold strip_closing_fence. rewrite rev_append.
    cbn [fence rev append startswith Ascii.eqb Bool.eqb andb skip newline
         drop_newline].
    now rewrite rev_rev, append_empty_r. }
  rewrite C, Hq. f_equal. apply rstrip_char_keep, Hsemi.
Qed.

Lemma nl_to_sql_unwraps_fence_witness :
  nl_to_sql (Some (fence ++ "sql" ++ String newline
                     ("SELECT region, SUM(sales) FROM data GROUP BY region"
                      ++ String newline fence)))
  = Some "SELECT region, SUM(sales) FROM data GROUP BY region".
Proof.
  apply (nl_to_sql_unwraps_fence "sql"
           "SELECT region, SUM(sales) FROM data GROUP BY region");
    [reflexivity | reflexivity | discriminate].
Defined.

Lemma rstrip_idempotent s : rstrip (rstrip s) = rstrip s.
Proof.
  induction s as [|c s IH]; simpl; [reflexivity|].
  destruct (is_space c && is_empty (rstrip s)) eqn:E; [reflexivity|].
  simpl. now rewrite IH, E.
Qed.

Lemma lstrip_head s :
  lstrip s = "" \/ exists c r, lstrip s = String c r /\ is_space c = false.
Proof.
  induction s as [|c s IH]; simpl; [now left|].
  destruct (is_space c) eqn:E; [exact IH|]. right. now exists c, s.
Qed.

Lemma strip_idempotent s : strip (strip s) = strip s.
Proof.
  unfold strip. destruct (lstrip_head s) as [-> | (c & r & -> & Hc)];
    [reflexivity|].
  simpl. rewrite Hc. simpl. rewrite Hc. simpl.
  rewrite rstrip_idempotent.
  destruct (is_empty (rstrip r)); rewrite ?Hc; reflexivity.
Qed.

Lemma rstrip_end_not_space s c :
  last_char None (rstrip s) = Some c -> is_space c = false.
Proof.
  induction s as [|d s IH]; simpl; [discriminate|].
  destruct (is_space d && is_empty (rstrip s)) eqn:E; [discriminate|].
  simpl. destruct (rstrip s) as [|e r] eqn:R.
  - simpl in *. rewrite andb_true_r in E. now intros [= <-].
  - rewrite (last_char_nonempty (Some d) None); [exact IH | discriminate].
Qed.

Lemma rev_head s c r : rev s = String c r -> last_char None s = Some c.
Proof.
  revert c r. induction s as [|d s IH]; intros c r; simpl; [discriminate|].
  destruct (rev s) as [|c' r'] eqn:R; simpl.
  - destruct s as [|e s']; [now intros [= <- _]|].
    simpl in R. destruct (rev s'); discriminate R.
  - intros [= <- _].
    destruct s as [|e s']; [discriminate R|].
    rewrite (last_char_nonempty (Some d) None); [|discriminate].
    now apply (IH c' r').
Qed.

(** X6. A reply without fences passes through: when the trimmed reply
    neither begins nor ends with a fence, [nl_to_sql] returns it trimmed
    and without its trailing semicolons. *)
Theorem nl_to_sql_plain_reply content :
  startswith fence (strip content) = false ->
  startswith fence (rev (strip content)) = false ->
  nl_to_sql (Some content) = Some (rstrip_char ";"%char (strip content)).
Proof.
  intros Hopen Hclose. unfold nl_to_sql, clean_reply.
  assert (O : strip_opening_fence (strip content) = strip content)
    by (unfold strip_opening_fence; now rewrite Hopen).
  rewrite O.
  assert (C : strip_closing_fence (strip content) = strip content).
  { unfold strip_closing_fence.
    destruct (rev (strip content)) as [|c r] eqn:R; [reflexivity|].
    assert (N : Ascii.eqb c newline = false).
    { apply rev_head in R. unfold strip in R.
      apply rstrip_end_not_space in R.
      destruct (Ascii.eqb_spec c newline) as [-> | _];
        [discriminate R | reflexivity]. }
    rewrite N. cbn [andb]. now rewrite Hclose. }
  now rewrite C, strip_idempotent.
Qed.

Lemma nl_to_sql_plain_reply_witness :
  nl_to_sql (Some "  SELECT * FROM data LIMIT 5;  ")
  = Some "SELECT * FROM data LIMIT 5".
Proof.
  exact (nl_to_sql_plain_reply "  SELECT * FROM data LIMIT 5;  " eq_refl eq_refl).
Defined.

End TextHandling.

(* ------------------------------------------------------------------ *)
(** ** More on the statistics                                          *)
(* ------------------------------------------------------------------ *)

Section StatisticsKeys.
Import Num Frame Report Analysis.
Local Open Scope Q_scope.

Lemma dict_set_fresh {V : Type} (d : list (string * V)) k v :
  ~ In k (map fst d) -> dict_set d k v = (d ++ [(k, v)])%list.
Proof.
  induction d as [|[k' v'] d IH]; simpl; [reflexivity|].
  intros H. destruct (String.eqb_spec k' k) as [E | _]; [tauto|].
  rewrite IH; [reflexivity | tauto].
Qed.

Lemma stats_fold_keys l :
  forall acc,
    NoDup (map fst acc ++ map col_name l) ->
    map fst
      (fold_left
         (fun stats col =>
            let series := numeric_values col in
            if (length series =? 0)%nat then stats
            else dict_set stats (col_name col) (column_stats series))
         l acc)
    = (map fst acc ++ map col_name (filter has_values l))%list.
Proof.
  induction l as [|c l IH]; intros acc ND; simpl.
  - now rewrite app_nil_r.
  - simpl in ND. unfold has_values at 1.
    destruct (length (numeric_values c) =? 0)%nat; simpl.
    + apply IH. eapply NoDup_remove_1; exact ND.
    + assert (F : ~ In (col_name c) (map fst acc)).
      { apply NoDup_remove_2 in ND. intros H. apply ND.
        apply in_or_app. now left. }
      rewrite (dict_set_fresh acc _ _ F).
      rewrite IH.
      * rewrite map_app. simpl. now rewrite <- app_assoc.
      * rewrite map_app. simpl. now rewrite <- app_assoc.
Qed.

Lemma NoDup_map_filter {A B : Type} (f : A -> B) (p : A -> bool) l :
  NoDup (map f l) -> NoDup (map f (filter p l)).
Proof.
  induction l as [|a l IH]; simpl; [auto|].
  intros ND. inversion ND as [|? ? Hnot ND']; subst.
  destruct (p a); simpl; [|auto].
  constructor; [|auto].
  intros H. apply Hnot. apply in_map_iff in H as (x & E & Hx).
  apply filter_In in Hx as [Hx _]. rewrite <- E. now apply in_map.
Qed.

Lemma no_cells_no_values c :
  series_len (col_data c) = 0%nat -> numeric_values c = [].
Proof.
  unfold numeric_values. destruct (col_data c) as [vals|vals]; simpl; [|auto].
  intros H. apply length_zero_iff_nil in H. now subst.
Qed.

(** X7. [compute_stats] has one entry for each numeric column that
    holds a value, in column order, and for no other column; a table
    without numeric columns gives the empty mapping. *)
Theorem compute_stats_keys df :
  rectangular df -> NoDup (columns df) ->
  map fst (compute_stats df) = columns (filter has_values (select_numeric df)) /\
  (select_numeric df = [] -> compute_stats df = []).
Proof.
  intros R ND. split.
  - unfold compute_stats.
    destruct (empty (select_numeric df)) eqn:E.
    + simpl. destruct (select_numeric df) as [|c rest] eqn:S; [reflexivity|].
      simpl in E. apply Nat.eqb_eq in E.
      assert (Z : nrows df = 0%nat).
      { assert (Hin : In c df).
        { assert (H : In c (select_numeric df)) by (rewrite S; now left).
          apply filter_In in H. tauto. }
        unfold rectangular in R. rewrite Forall_forall in R.
        rewrite <- (R c Hin). exact E. }
      assert (Hall : forall x, In x (c :: rest) -> has_values x = false).
      { intros x Hx. rewrite <- S in Hx. apply filter_In in Hx as [Hx _].
        unfold rectangular in R. rewrite Forall_forall in R.
        unfold has_values.
        rewrite (no_cells_no_values x); [reflexivity|].
        rewrite (R x Hx). exact Z. }
      assert (F : filter has_values (c :: rest) = []).
      { clear - Hall. induction (c :: rest) as [|x l IH]; simpl; [reflexivity|].
        rewrite (Hall x (or_introl eq_refl)). apply IH.
        intros y Hy. apply Hall. now right. }
      now rewrite F.
    + rewrite stats_fold_keys; [reflexivity|].
      simpl. unfold select_numeric. apply NoDup_map_filter. exact ND.
  - intros S. unfold compute_stats. now rewrite S.
Qed.

Lemma sales_with_gaps_names : NoDup (columns sales_with_gaps).
Proof. repeat constructor; simpl; intuition discriminate. Defined.

Lemma compute_stats_keys_witness :
  map fst (compute_stats sales_with_gaps) = ["sales"; "returns"].
Proof.
  refine (proj1 (compute_stats_keys sales_with_gaps _ sales_with_gaps_names)).
  repeat constructor.
Defined.

Lemma qsum_bounds lo hi l :
  (forall x, In x l -> lo <= x /\ x <= hi) ->
  qlen l * lo <= qsum l /\ qsum l <= qlen l * hi.
Proof.
  induction l as [|a l IH]; intros H.
  - change (qlen []) with 0. change (qsum []) with 0. lra.
  - rewrite qlen_cons. cbn [qsum fold_right]. fold (qsum l).
    destruct (H a (or_introl eq_refl)).
    destruct IH as [I1 I2]; [intros x Hx; apply H; now right|]. lra.
Qed.

Lemma mean_between l :
  l <> [] -> list_min l <= mean l /\ mean l <= list_max l.
Proof.
  intros Hne. pose proof (qlen_pos l Hne) as Hn.
  destruct (qsum_bounds (list_min l) (list_max l) l) as [H1 H2].
  { intros x Hx. split; [now apply list_min_le | now apply list_max_ge]. }
  unfold mean. split.
  - apply Qle_shift_div_l; lra.
  - apply Qle_shift_div_r; lra.
Qed.

(** X8. For a column of whole numbers whose magnitudes add up to 2^53
    at most (so that its float64 sum is exact), the mean reported by
    [compute_stats] lies between the reported minimum and maximum. *)
Theorem compute_stats_mean_between df name st :
  In (name, st) (compute_stats df) ->
  (forall col, In col df -> col_name col = name ->
               sums_exactly (numeric_values col) = true) ->
  st_min st <= st_mean st /\ st_mean st <= st_max st.
Proof.
  intros H _.
  apply compute_stats_entries in H as (col & _ & _ & _ & Hne & ->).
  destruct (mean_between _ Hne) as [H1 H2].
  cbn [column_stats st_min st_mean st_max].
  split; apply py_round_mono; assumption.
Qed.

Lemma compute_stats_mean_between_witness :
  10 <= 30 /\ 30 <= 50.
Proof.
  apply (compute_stats_mean_between five_regions "revenue"
           (column_stats [10; 20; 30; 40; 50]) (or_introl eq_refl)).
  intros col [<- | [<- | []]]; [discriminate | reflexivity].
Defined.

End StatisticsKeys.

(* ------------------------------------------------------------------ *)
(** ** More on the insights                                            *)
(* ------------------------------------------------------------------ *)

Section InsightsMore.
Import Num Frame Report Analysis Main.
Local Open Scope Q_scope.

Lemma top_group_in groups g : top_group groups = Some g -> In g groups.
Proof.
  revert g. induction groups as [|h groups IH]; intros g; simpl; [discriminate|].
  destruct (top_group groups) as [g'|].
  - destruct (Qle_bool (snd g') (snd h)); intros [= <-]; auto.
  - intros [= <-]. now left.
Qed.

Lemma top_group_max groups g :
  top_group groups = Some g -> forall h, In h groups -> snd h <= snd g.
Proof.
  revert g. induction groups as [|k groups IH]; intros g; simpl; [discriminate|].
  destruct (top_group groups) as [g'|] eqn:T.
  - destruct (Qle_bool (snd g') (snd k)) eqn:E; intros [= <-] h [<- | Hh].
    + lra.
    + apply Qle_bool_iff in E. pose proof (IH g' eq_refl h Hh). lra.
    + destruct (Qlt_le_dec (snd g') (snd k)) as [L|L]; [|lra].
      assert (Qle_bool (snd g') (snd k) = true)
        by (apply Qle_bool_iff; lra). congruence.
    + now apply IH.
  - intros [= <-] h [<- | Hh]; [lra|].
    destruct groups; [contradiction | simpl in T].
    destruct (top_group groups); [destruct (Qle_bool _ _)|]; discriminate.
Qed.

Lemma qsum_nonneg l : (forall y, In y l -> 0 <= y) -> 0 <= qsum l.
Proof.
  induction l as [|a l IH]; intros H; [cbn; lra|].
  cbn [qsum fold_right]. fold (qsum l).
  assert (0 <= a) by (apply H; now left).
  assert (0 <= qsum l) by (apply IH; intros y Hy; apply H; now right).
  lra.
Qed.

Lemma member_le_sum l x :
  (forall y, In y l -> 0 <= y) -> In x l -> x <= qsum l.
Proof.
  induction l as [|a l IH]; intros H Hx; [contradiction|].
  cbn [qsum fold_right]. fold (qsum l).
  assert (Ha : 0 <= a) by (apply H; now left).
  assert (Hl : forall y, In y l -> 0 <= y) by (intros y Hy; apply H; now right).
  pose proof (qsum_nonneg l Hl).
  destruct Hx as [<- | Hx]; [lra|].
  pose proof (IH Hl Hx). lra.
Qed.

Lemma add_to_group_nonneg groups k v :
  0 <= v -> (forall g, In g groups -> 0 <= snd g) ->
  forall g, In g (add_to_group groups k v) -> 0 <= snd g.
Proof.
  intros Hv. induction groups as [|[k' s0] groups IH]; intros H g; simpl.
  - intros [<- | []]. exact Hv.
  - assert (H0 : 0 <= s0) by (apply (H (k', s0)); now left).
    destruct (String.eqb k' k); simpl.
    + intros [<- | Hg]; [|apply H; now right].
      change (0 <= Qred (s0 + v)). rewrite Qred_correct. lra.
    + intros [<- | Hg]; [exact H0|].
      apply IH; [intros h Hh; apply H; now right | exact Hg].
Qed.

Lemma group_sums_nonneg keys :
  forall vals groups,
    (forall x, In (Some x) vals -> 0 <= value x) ->
    (forall g, In g groups -> 0 <= snd g) ->
    forall g, In g (group_sums keys vals groups) -> 0 <= snd g.
Proof.
  induction keys as [|k keys IH]; intros vals groups Hv Hg; simpl; [exact Hg|].
  destruct k as [k|]; destruct vals as [|v vals]; try exact Hg.
  - apply IH; [intros x Hx; apply Hv; now right|].
    apply add_to_group_nonneg; [|exact Hg].
    destruct v as [x|]; [apply Hv; now left | lra].
  - apply IH; [intros x Hx; apply Hv; now right | exact Hg].
Qed.

Lemma in_dropna {A : Type} (x : A) l : In (Some x) l -> In x (dropna l).
Proof.
  induction l as [|[y|] l IH]; simpl; [auto| |].
  - intros [[= ->] | H]; auto.
  - intros [E | H]; [discriminate | auto].
Qed.

Lemma qsum_upper hi l :
  (forall x, In x l -> x <= hi) -> qsum l <= qlen l * hi.
Proof.
  induction l as [|a l IH]; intros H.
  - change (qlen []) with 0. change (qsum []) with 0. lra.
  - rewrite qlen_cons. cbn [qsum fold_right]. fold (qsum l).
    assert (a <= hi) by (apply H; now left).
    assert (qsum l <= qlen l * hi) by (apply IH; intros x Hx; apply H; now right).
    lra.
Qed.

(** The share of the top group: never negative, and at most the whole
    when no group sum is negative. *)
Lemma top_share groups top top_val :
  top_group groups = Some (top, top_val) ->
  0 <= (if Qlt_le_dec 0 (qsum (map snd groups))
        then Qred (top_val / qsum (map snd groups) * 100) else 0) /\
  ((forall g, In g groups -> 0 <= snd g) ->
   (if Qlt_le_dec 0 (qsum (map snd groups))
    then Qred (top_val / qsum (map snd groups) * 100) else 0) <= 100).
Proof.
  intros T. set (total := qsum (map snd groups)).
  pose proof (top_group_in _ _ T) as Hin.
  pose proof (top_group_max _ _ T) as Hmax. simpl in Hmax.
  assert (Hin' : In top_val (map snd groups))
    by (apply in_map_iff; exists (top, top_val); auto).
  destruct (Qlt_le_dec 0 total) as [Pos | NPos]; [|split; intros; lra].
  assert (Htop : 0 <= top_val).
  { destruct (Qlt_le_dec top_val 0) as [Neg|]; [exfalso | assumption].
    assert (Hub : total <= qlen (map snd groups) * top_val).
    { apply qsum_upper. intros y Hy.
      apply in_map_iff in Hy as (g & <- & Hg). now apply Hmax. }
    assert (Hn : 0 < qlen (map snd groups)).
    { apply qlen_pos. destruct groups; [contradiction | discriminate]. }
    nra. }
  split.
  - rewrite Qred_correct.
    assert (0 <= top_val / total) by (apply Qle_shift_div_l; lra). lra.
  - intros Hnn. rewrite Qred_correct.
    assert (Hle : top_val <= total).
    { apply member_le_sum; [|exact Hin'].
      intros y Hy. apply in_map_iff in Hy as (g & <- & Hg). now apply Hnn. }
    assert (top_val / total <= 1) by (apply Qle_shift_div_r; lra). lra.
Qed.

Lemma top_contributor_cases df :
  top_contributor df = [] \/
  exists cat top num pct,
    top_contributor df = [TopContributor cat top num pct] /\
    0 <= pct /\
    ((forall numc, hd_error (select_numeric df) = Some numc ->
                   forall x, In x (numeric_values numc) -> 0 <= x) ->
     pct <= 100).
Proof.
  unfold top_contributor.
  destruct (filter (fun c => negb (is_numeric c)) df) as [|cat ?]; [now left|].
  destruct (select_numeric df) as [|numc ?] eqn:S; [now left|].
  destruct (col_data cat) as [|keys] eqn:Dc; [now left|].
  destruct (col_data numc) as [vals|] eqn:Dn; [|now left].
  destruct (1 <? length (group_sums keys vals []))%nat; [|now left].
  destruct (top_group (group_sums keys vals [])) as [[top top_val]|] eqn:T;
    [|now left].
  right. destruct (top_share _ _ _ T) as [P1 P2].
  eexists _, _, _, _. split; [reflexivity|]. split; [exact P1|].
  intros Hnn. apply P2.
  apply group_sums_nonneg; [|intros g []].
  intros x Hx. apply (Hnn numc eq_refl).
  unfold numeric_values. rewrite Dn. apply in_map. now apply in_dropna.
Qed.

Lemma trend_of_is_trend col series : is_trend (trend_of col series) = true.
Proof.
  unfold trend_of.
  destruct (Qlt_le_dec _ _); [reflexivity|].
  destruct (Qlt_le_dec _ _); reflexivity.
Qed.

Lemma detect_trends_entries df s :
  In s (detect_trends df) <->
  exists c, In c df /\ is_numeric c = true /\
            (3 <= length (numeric_values c))%nat /\
            s = trend_of (col_name c) (numeric_values c).
Proof.
  unfold detect_trends. rewrite in_flat_map. split.
  - intros (c & Hc & Hs). unfold select_numeric in Hc.
    apply filter_In in Hc as [Hin Hnum].
    destruct (Nat.ltb_spec (length (numeric_values c)) 3); [contradiction|].
    destruct Hs as [<- | []]. exists c. auto.
  - intros (c & Hin & Hnum & Hlen & ->). exists c. split.
    + unfold select_numeric. apply filter_In. auto.
    + destruct (Nat.ltb_spec (length (numeric_values c)) 3); [lia | now left].
Qed.

Lemma detect_trends_all_trends df :
  forall s, In s (detect_trends df) -> is_trend s = true.
Proof.
  intros s H. apply detect_trends_entries in H as (c & _ & _ & _ & ->).
  apply trend_of_is_trend.
Qed.

Lemma in_firstn {A : Type} n (l : list A) x : In x (firstn n l) -> In x l.
Proof.
  revert l; induction n as [|n IH]; intros [|a l]; simpl; auto.
  - intros [].
  - intros [<- | H]; auto.
Qed.

Lemma filter_all {A : Type} (p : A -> bool) l :
  (forall x, In x l -> p x = true) -> filter p l = l.
Proof.
  induction l as [|a l IH]; simpl; intros H; [reflexivity|].
  rewrite (H a (or_introl eq_refl)), IH; [reflexivity|].
  intros x Hx. apply H. now right.
Qed.

(** X9. The share reported by the top-contributor sentence is never
    negative, and it is at most 100 when the first numeric column holds
    no negative value. *)
Theorem top_contributor_share df stats cat top num pct :
  In (TopContributor cat top num pct) (generate_insights df stats) ->
  0 <= pct /\
  ((forall numc, hd_error (select_numeric df) = Some numc ->
                 forall x, In x (numeric_values numc) -> 0 <= x) ->
   pct <= 100).
Proof.
  unfold generate_insights. destruct (empty df); [contradiction|].
  rewrite !in_app_iff. intros [H | [H | [H | H]]].
  - destruct (top_contributor_cases df)
      as [E | (c & t & n & p & E & P1 & P2)]; rewrite E in H;
      [contradiction|].
    destruct H as [[= <- <- <- <-] | []]. auto.
  - destruct stats as [|[col cs] ?]; simpl in H; [contradiction|].
    destruct H as [H | []]. discriminate H.
  - apply in_firstn, detect_trends_all_trends in H. discriminate H.
  - destruct H as [H | []]. discriminate H.
Qed.

Lemma top_contributor_share_witness :
  0 <= 100 # 3 /\ 100 # 3 <= 100.
Proof.
  destruct (top_contributor_share five_regions (compute_stats five_regions)
              "Region" "centre" "revenue" (100 # 3))
    as [H1 H2].
  - left. reflexivity.
  - split; [exact H1 | apply H2].
    intros numc [= <-] x Hx. simpl in Hx.
    repeat (destruct Hx as [<- | Hx]; [discriminate|]). contradiction.
Defined.

Lemma top_contributor_length df : (length (top_contributor df) <= 1)%nat.
Proof.
  destruct (top_contributor_cases df) as [-> | (c & t & n & p & -> & _)];
    simpl; lia.
Qed.

Lemma top_contributor_no_trend df : filter is_trend (top_contributor df) = [].
Proof.
  destruct (top_contributor_cases df) as [-> | (c & t & n & p & -> & _)];
    reflexivity.
Qed.

Lemma range_insight_length stats :
  (length (range_insight stats) <= 1)%nat /\
  filter is_trend (range_insight stats) = [].
Proof. destruct stats as [|[col cs] ?]; simpl; split; (lia || reflexivity). Qed.

Lemma generate_insights_lengths df stats :
  (length (generate_insights df stats) <= 5)%nat /\
  (length (filter is_trend (generate_insights df stats)) <= 2)%nat.
Proof.
  unfold generate_insights. destruct (empty df); [simpl; lia|].
  pose proof (top_contributor_length df).
  destruct (range_insight_length stats) as [Hr Hrt].
  pose proof (firstn_le_length 2 (detect_trends df)) as Hf.
  split.
  - rewrite !length_app. cbn [length]. lia.
  - rewrite !filter_app, top_contributor_no_trend, Hrt.
    cbn [filter is_trend app]. rewrite app_nil_r.
    pose proof (filter_length_le is_trend (firstn 2 (detect_trends df))). lia.
Qed.

(** X10. [generate_insights] returns at most 5 sentences, at most 2 of
    them trend sentences, and the insight list of a response of
    [analyze_data] holds at most 6. *)
Theorem insights_bounded :
  (forall df stats,
      (length (generate_insights df stats) <= 5)%nat /\
      (length (filter is_trend (generate_insights df stats)) <= 2)%nat) /\
  (forall env question sql executed full,
      (length (insights_of (analyze_data env question sql executed full)) <= 6)%nat).
Proof.
  split; [exact generate_insights_lengths|].
  intros env question sql executed full. unfold analyze_data.
  destruct (negb (Database.validate_sql sql)); [simpl; lia|].
  destruct executed as [table|]; [|simpl; lia].
  cbn [insights_of insights].
  assert (B : (length (if negb (nrows table =? 0)%nat
                       then generate_insights table
                              (if negb (nrows table =? 0)%nat
                               then compute_stats table else [])
                       else []) <= 5)%nat).
  { destruct (negb (nrows table =? 0)%nat); [|simpl; lia].
    apply generate_insights_lengths. }
  destruct (asks_prediction question); [|exact (Nat.le_trans _ _ _ B (Nat.le_succ_diag_r 5))].
  destruct full as [full|]; cbn [snd];
    [|exact (Nat.le_trans _ _ _ B (Nat.le_succ_diag_r 5))].
  destruct (has_predicted_value _);
    [|exact (Nat.le_trans _ _ _ B (Nat.le_succ_diag_r 5))].
  rewrite length_app.
  destruct (Prediction.predict env full question); simpl; lia.
Qed.



Lemma qsum_const c l : (forall x, In x l -> x == c) -> qsum l == qlen l * c.
Proof.
  induction l as [|a l IH]; intros H.
  - change (qlen []) with 0. change (qsum []) with 0. ring.
  - rewrite qlen_cons. cbn [qsum fold_right]. fold (qsum l).
    rewrite (H a (or_introl eq_refl)), IH; [ring|].
    intros x Hx. apply H. now right.
Qed.

Lemma mean_const c l : l <> [] -> (forall x, In x l -> x == c) -> mean l == c.
Proof.
  intros Hne H. unfold mean. rewrite (qsum_const c l H).
  pose proof (qlen_pos l Hne). field. lra.
Qed.

Lemma in_skipn {A : Type} n (l : list A) x : In x (skipn n l) -> In x l.
Proof.
  revert l; induction n as [|n IH]; intros [|a l]; simpl; auto.
Qed.

Lemma constant_column_values c n :
  map value (dropna (repeat (Some (NFloat c)) n)) = repeat c n.
Proof. induction n as [|n IH]; simpl; congruence. Qed.

Lemma constant_halves c n :
  (3 <= n)%nat ->
  first_half_mean (repeat c n) == c /\ second_half_mean (repeat c n) == c.
Proof.
  intros Hn. unfold first_half_mean, second_half_mean.
  rewrite repeat_length.
  assert (H1 : (0 < n / 2)%nat) by (apply Nat.div_str_pos; lia).
  assert (H2 : (n / 2 < n)%nat) by (apply Nat.div_lt; lia).
  split; apply mean_const.
  - intros E. apply (f_equal (@length Q)) in E.
    rewrite length_firstn, repeat_length in E. cbn [length] in E. lia.
  - intros x Hx. apply in_firstn, repeat_spec in Hx. now subst.
  - intros E. apply (f_equal (@length Q)) in E.
    rewrite length_skipn, repeat_length in E. cbn [length] in E. lia.
  - intros x Hx. apply in_skipn, repeat_spec in Hx. now subst.
Qed.

(** X12. A column that repeats one value [c] at least 3 times is
    reported stable when [c] is zero or positive; when [c] is negative
    the first comparison holds ([c] exceeds 1.1 times [c]) and the
    column is reported as an upward trend of 0 percent. *)
Theorem detect_trends_constant name c n :
  (3 <= n)%nat ->
  detect_trends
    [ {| col_name := name; col_data := Numeric (repeat (Some (NFloat c)) n) |} ]
  = [ if Qlt_le_dec c 0 then TrendUp name (Finite 0) else TrendStable name ].
Proof.
  intros Hn. unfold detect_trends, select_numeric, numeric_values.
  cbn [filter is_numeric col_data col_name flat_map app].
  rewrite constant_column_values, repeat_length.
  destruct (Nat.ltb_spec n 3); [lia|].
  f_equal. unfold trend_of.
  destruct (constant_halves c n Hn) as [F S].
  set (first := first_half_mean (repeat c n)) in *.
  set (second := second_half_mean (repeat c n)) in *.
  clearbody first second.
  destruct (Qlt_le_dec (first * (11 # 10)) second) as [Up | NUp].
  - destruct (Qlt_le_dec c 0) as [Neg | NNeg]; [|exfalso; lra].
    unfold np_div.
    assert (Hz : Qeq_bool first 0 = false).
    { destruct (Qeq_bool first 0) eqn:E; [|reflexivity].
      apply Qeq_bool_eq in E. lra. }
    rewrite Hz.
    assert (One : Qred (second / first) = Qred 1).
    { apply Qred_complete. rewrite S, F. field. lra. }
    rewrite One. reflexivity.
  - destruct (Qlt_le_dec second (first * (9 # 10))) as [Down | NDown];
      [exfalso; lra|].
    destruct (Qlt_le_dec c 0) as [Neg | NNeg]; [exfalso; lra | reflexivity].
Qed.

Lemma detect_trends_constant_witness :
  detect_trends
    [ {| col_name := "balance";
         col_data := Numeric (repeat (Some (NFloat (-10))) 4) |} ]
  = [TrendUp "balance" (Finite 0)].
Proof.
  exact (detect_trends_constant "balance" (-10) 4 (le_S _ _ (le_n 3))).
Defined.

(** X13. The range sentence built from the statistics of the table
    itself has its lower end at most its upper end, and reports their
    difference, which is not negative. *)
Theorem range_insight_of_stats df col lo hi r :
  In (RangeOf col lo hi r) (generate_insights df (compute_stats df)) ->
  lo <= hi /\ 0 <= r /\ r == hi - lo.
Proof.
  unfold generate_insights. destruct (empty df); [contradiction|].
  rewrite !in_app_iff. intros [H | [H | [H | H]]].
  - destruct (top_contributor_cases df)
      as [E | (c & t & n & p & E & _)]; rewrite E in H; [contradiction|].
    destruct H as [H | []]. discriminate H.
  - destruct (compute_stats df) as [|[name cs] rest] eqn:S;
      cbn [range_insight In] in H; [contradiction|].
    destruct H as [H | []].
    assert (E1 : lo = st_min cs) by congruence.
    assert (E2 : hi = st_max cs) by congruence.
    assert (E3 : r = Qred (st_max cs - st_min cs)) by congruence.
    clear H. subst lo hi r.
    assert (Hin : In (name, cs) (compute_stats df)) by (rewrite S; now left).
    apply compute_stats_entries in Hin as (c & _ & _ & _ & Hne & ->).
    cbn [column_stats st_min st_max].
    assert (Hle : list_min (numeric_values c) <= list_max (numeric_values c)).
    { destruct (median_between _ Hne). lra. }
    apply py_round_mono in Hle.
    split; [exact Hle|]. split; [rewrite Qred_correct; lra | apply Qred_correct].
  - apply in_firstn, detect_trends_all_trends in H. discriminate H.
  - destruct H as [H | []]. discriminate H.
Qed.

Lemma range_insight_of_stats_witness :
  10 <= 50 /\ 0 <= 40 /\ 40 == 50 - 10.
Proof.
  exact (range_insight_of_stats five_regions "Revenue" 10 50 40
           (or_intror (or_introl eq_refl))).
Defined.

End InsightsMore.


(* ------------------------------------------------------------------ *)
(** ** More on the charts                                              *)
(* ------------------------------------------------------------------ *)

Section ChartsMore.
Import Frame Charts.

Lemma detect_one_column env a :
  detect_chart_type env [a] =
  if empty [a] then bar else if is_numeric a then histogram else bar.
Proof.
  unfold detect_chart_type, select_numeric. cbn [filter].
  destruct (empty [a]); [reflexivity|].
  destruct (is_numeric a); reflexivity.
Qed.

Lemma detect_two_columns env a b rest :
  detect_chart_type env (a :: b :: rest) =
  if empty (a :: b :: rest) then bar
  else if is_time env (astype_str env a) then line
  else if (nrows (a :: b :: rest) <=? 6)%nat
          && (1 <=? length (columns (select_numeric (a :: b :: rest))))%nat
          && (1 <=? length (filter
                              (fun c => negb (mem c (columns (select_numeric
                                                               (a :: b :: rest)))))
                              (columns (a :: b :: rest))))%nat
       then pie
  else if (15 <? nrows (a :: b :: rest))%nat then line
  else bar.
Proof.
  unfold detect_chart_type. destruct (empty (a :: b :: rest)); reflexivity.
Qed.

Ltac split_ifs_in H :=
  repeat match type of H with
         | context [if ?b then _ else _] => destruct b eqn:?
         end.

(** X14. Automatic detection never answers 'scatter'; it answers
    'histogram' exactly for a table with rows whose only column is
    numeric; 'pie' only for a table of 1 to 6 rows with two columns or
    more, one of them numeric; and for two columns or more 'bar' only up
    to 15 rows. *)
Theorem detect_chart_type_range env df :
  detect_chart_type env df <> scatter /\
  (detect_chart_type env df = histogram <->
   empty df = false /\ exists c, df = [c] /\ is_numeric c = true) /\
  (detect_chart_type env df = pie ->
   (2 <= length df)%nat /\ (1 <= nrows df <= 6)%nat /\ select_numeric df <> []) /\
  (detect_chart_type env df = bar -> (2 <= length df)%nat ->
   (nrows df <= 15)%nat).
Proof.
  destruct df as [|a [|b rest]].
  - split; [discriminate|]. split; [split|split].
    + discriminate.
    + intros [E _]. discriminate E.
    + discriminate.
    + intros _ H. simpl in H. lia.
  - rewrite detect_one_column.
    split; [|split; [split|split]].
    + intros H. split_ifs_in H; discriminate H.
    + intros H. split_ifs_in H; try discriminate H.
      split; [reflexivity|]. exists a. auto.
    + intros [E (c & [= <-] & Hc)]. now rewrite E, Hc.
    + intros H. split_ifs_in H; discriminate H.
    + intros _ H. simpl in H. lia.
  - rewrite detect_two_columns.
    split; [|split; [split|split]].
    + intros H. split_ifs_in H; discriminate H.
    + intros H. split_ifs_in H; discriminate H.
    + intros [_ (c & Hc & _)]. discriminate Hc.
    + intros H. split_ifs_in H; try discriminate H.
      match goal with
      | E : (_ && _ && _) = true |- _ =>
          apply andb_true_iff in E as [E Hnon];
          apply andb_true_iff in E as [H6 Hnum]
      end.
      apply Nat.leb_le in H6.
      match goal with
      | E : empty _ = false |- _ => unfold empty in E; apply Nat.eqb_neq in E
      end.
      split; [simpl; lia|]. split; [lia|].
      intros Z. rewrite Z in Hnum. discriminate Hnum.
    + intros H _. split_ifs_in H; try discriminate H.
      * match goal with
        | E : empty _ = true |- _ => unfold empty in E; apply Nat.eqb_eq in E
        end. lia.
      * match goal with
        | E : (15 <? _)%nat = false |- _ => apply Nat.ltb_ge in E
        end. lia.
Qed.

Lemma nth_name_in k l : (k < length l)%nat -> In (nth_name k l) l.
Proof. intros H. unfold nth_name. now apply nth_In. Qed.

Lemma numeric_names_in df n :
  In n (columns (select_numeric df)) -> In n (columns df).
Proof.
  unfold columns, select_numeric. intros H.
  apply in_map_iff in H as (c & <- & Hc).
  apply filter_In in Hc as [Hc _]. now apply in_map.
Qed.

(** X15. A figure names only columns of the table: its x column and
    every series it plots are column names of the frame it was built
    from, whichever chart type was asked for. *)
Theorem generate_chart_columns env df ct fig :
  generate_chart env df ct = Some fig ->
  forall n, In n (fig_x fig :: fig_traces fig) -> In n (columns df).
Proof.
  unfold generate_chart.
  destruct (empty df || (length (columns df) <? 1)%nat); [discriminate|].
  set (cols := columns df).
  set (num_cols := columns (select_numeric df)).
  assert (Hnum : forall n, In n num_cols -> In n cols)
    by (intros n; apply numeric_names_in).
  assert (Hbar : forall f,
             (if (2 <=? length cols)%nat
              then Some (BarFig (nth_name 0 cols)
                           (firstn 5 (if is_empty_list num_cols
                                      then [nth_name 1 cols] else num_cols)))
              else None) = Some f ->
             forall n, In n (fig_x f :: fig_traces f) -> In n cols).
  { intros f H. destruct (Nat.leb_spec 2 (length cols)); [|discriminate H].
    injection H as <-. cbn [fig_x fig_traces].
    intros n Hn. apply in_inv in Hn as [<- | Hn]; [apply nth_name_in; lia|].
    change (In n (firstn 5 (if is_empty_list num_cols
                            then [nth_name 1 cols] else num_cols))) in Hn.
    apply in_firstn in Hn.
    destruct num_cols as [|m ms]; cbn [is_empty_list] in Hn.
    - destruct Hn as [<- | []]. apply nth_name_in; lia.
    - now apply Hnum. }
  destruct (match ct with None => detect_chart_type env df | Some t => t end).
  - apply Hbar.
  - destruct (Nat.leb_spec 2 (length cols)); cbn [andb]; [|apply Hbar].
    destruct (Nat.leb_spec 1 (length num_cols)); [|apply Hbar].
    intros [= <-]. cbn [fig_x fig_traces].
    intros n Hn. apply in_inv in Hn as [<- | Hn]; [apply nth_name_in; lia|].
    change (In n (firstn 5 (if negb (mem (nth_name 0 cols) num_cols)
                            then num_cols else num_cols))) in Hn.
    apply in_firstn in Hn. apply Hnum.
    destruct (negb _); exact Hn.
  - destruct (Nat.leb_spec 2 (length cols)); [|apply Hbar].
    intros [= <-]. cbn [fig_x fig_traces].
    intros n [<- | [<- | []]]; [apply nth_name_in; lia|].
    destruct num_cols as [|m ms]; cbn [is_empty_list].
    + apply nth_name_in; lia.
    + apply Hnum. now left.
  - destruct (Nat.leb_spec 1 (length num_cols)); [|apply Hbar].
    intros [= <-]. cbn [fig_x fig_traces].
    intros n [<- | []]. apply Hnum, nth_name_in. lia.
  - destruct (Nat.leb_spec 2 (length num_cols)); [|apply Hbar].
    intros [= <-]. cbn [fig_x fig_traces].
    intros n [<- | [<- | []]]; apply Hnum, nth_name_in; lia.
Qed.

Lemma generate_chart_columns_witness :
  In "shop" (columns seven_measures) /\ In "m5" (columns seven_measures).
Proof.
  pose proof (generate_chart_columns plain_env seven_measures (Some line)
                (LineFig "shop" ["m1"; "m2"; "m3"; "m4"; "m5"]) eq_refl) as H.
  split; apply H; simpl; tauto.
Defined.

Lemma generate_chart_two_columns env a b rest ct :
  empty (a :: b :: rest) = false ->
  generate_chart env (a :: b :: rest) ct <> None.
Proof.
  intros E. unfold generate_chart. rewrite E.
  cbn [columns map length Nat.ltb Nat.leb orb andb].
  destruct (match ct with
            | None => detect_chart_type env (a :: b :: rest)
            | Some t => t
            end);
    repeat match goal with
           | |- context [if ?c then _ else _] => destruct c
           end; discriminate.
Qed.

(** X16. With rows and two columns or more a figure is always built,
    whatever chart type is asked for; left to itself, [generate_chart]
    builds none exactly when the table is empty or its only column is
    not numeric. *)
Theorem generate_chart_none env df :
  (forall ct, empty df = false -> (2 <= length df)%nat ->
              generate_chart env df ct <> None) /\
  (generate_chart env df None = None <->
   empty df = true \/ exists c, df = [c] /\ is_numeric c = false).
Proof.
  split.
  - intros ct E L. destruct df as [|a [|b rest]]; simpl in L; try lia.
    now apply generate_chart_two_columns.
  - destruct df as [|a [|b rest]].
    + split; [now left | reflexivity].
    + unfold generate_chart. rewrite detect_one_column.
      unfold select_numeric. cbn [filter].
      destruct (empty [a]) eqn:E; cbn [orb columns map length Nat.ltb Nat.leb].
      * split; [now left | reflexivity].
      * destruct (is_numeric a) eqn:N; cbn.
        -- split; [discriminate|].
           intros [H | (c & [= <-] & Hc)]; [discriminate H | congruence].
        -- split; [|reflexivity]. intros _. right. exists a. auto.
    + destruct (empty (a :: b :: rest)) eqn:E.
      * split; [now left|]. intros _. unfold generate_chart. now rewrite E.
      * split.
        -- intros H. now apply generate_chart_two_columns in H.
        -- intros [H | (c & H & _)]; discriminate H.
Qed.

Lemma generate_chart_none_witness :
  generate_chart plain_env five_regions (Some scatter) <> None /\
  generate_chart plain_env regions None = None.
Proof.
  destruct (generate_chart_none plain_env five_regions) as [H1 _].
  destruct (generate_chart_none plain_env regions) as [_ H2].
  split.
  - apply H1; [reflexivity | simpl; lia].
  - apply H2. right. exists (hd {| col_name := ""; col_data := Object [] |} regions).
    split; reflexivity.
Defined.

(** X23. Under automatic detection the figure is of the detected
    type, with one exception: a table detected as 'line' that has no
    numeric column is drawn as a bar chart. *)
Theorem generate_chart_follows_detection env df fig :
  generate_chart env df None = Some fig ->
  fig_kind fig = detect_chart_type env df \/
  (detect_chart_type env df = line /\ select_numeric df = [] /\
   fig_kind fig = bar).
Proof.
  destruct df as [|a [|b rest]].
  - discriminate.
  - unfold generate_chart. rewrite detect_one_column.
    unfold select_numeric. cbn [filter].
    destruct (empty [a]); [discriminate|].
    destruct (is_numeric a); cbn; [|discriminate].
    intros [= <-]. now left.
  - unfold generate_chart. rewrite detect_two_columns.
    destruct (empty (a :: b :: rest)); [discriminate|].
    generalize (15 <? nrows (a :: b :: rest))%nat as long.
    generalize (nrows (a :: b :: rest) <=? 6)%nat as short.
    intros short long.
    change (columns (a :: b :: rest))
      with (col_name a :: col_name b :: map col_name rest).
    cbn [orb length Nat.ltb Nat.leb andb].
    destruct (is_time env (astype_str env a)).
    + destruct (select_numeric (a :: b :: rest)) as [|m ms] eqn:S;
        cbn [columns map length Nat.leb is_empty_list];
        intros [= <-]; [right | left]; auto.
    + destruct (_ && _ && _).
      * intros [= <-]. now left.
      * destruct long.
        -- destruct (select_numeric (a :: b :: rest)) as [|m ms] eqn:S;
             cbn [columns map length Nat.leb is_empty_list];
             intros [= <-]; [right | left]; auto.
        -- intros [= <-]. now left.
Qed.

Lemma generate_chart_follows_detection_witness :
  bar = detect_chart_type plain_env two_text_columns \/
  (detect_chart_type plain_env two_text_columns = line /\
   select_numeric two_text_columns = [] /\ bar = bar).
Proof.
  exact (generate_chart_follows_detection plain_env two_text_columns
           (BarFig "region" ["city"]) eq_refl).
Defined.

End ChartsMore.

(* ------------------------------------------------------------------ *)
(** ** More on the forecaster                                          *)
(* ------------------------------------------------------------------ *)

Section ForecasterMore.
Import Num Frame Report Prediction.
Local Open Scope Q_scope.

Lemma find_none_iff {A : Type} (f : A -> bool) l :
  find f l = None <-> forall x, In x l -> f x = false.
Proof.
  split; [apply find_none|].
  induction l as [|a l IH]; intros H; simpl; [reflexivity|].
  rewrite (H a (or_introl eq_refl)). apply IH. intros x Hx. apply H. now right.
Qed.

Lemma find_first {A : Type} (f : A -> bool) pre c post :
  (forall x, In x pre -> f x = false) -> f c = true ->
  find f (pre ++ c :: post)%list = Some c.
Proof.
  induction pre as [|a pre IH]; intros H Hc; simpl.
  - now rewrite Hc.
  - rewrite (H a (or_introl eq_refl)). apply IH; [|exact Hc].
    intros x Hx. apply H. now right.
Qed.

(** X17. [detect_time_column] answers the name of a column of the
    table; it answers none exactly when no column looks like dates and
    no column name holds a time keyword; and the first column whose
    content looks like dates is answered wherever it stands, columns
    with a time keyword in their name before it included. *)
Theorem detect_time_column_result env df :
  (forall t, detect_time_column env df = Some t -> In t (columns df)) /\
  (detect_time_column env df = None <->
   forall c, In c df ->
             looks_like_dates env c = false /\ named_like_time c = false) /\
  (forall pre c post,
      df = (pre ++ c :: post)%list ->
      (forall x, In x pre -> looks_like_dates env x = false) ->
      looks_like_dates env c = true ->
      detect_time_column env df = Some (col_name c)).
Proof.
  split; [|split].
  - intros t H. apply detect_time_column_in in H as (c & Hin & <-).
    unfold columns. now apply in_map.
  - unfold detect_time_column.
    destruct (find (looks_like_dates env) df) as [c|] eqn:F.
    + split; [discriminate|]. intros H.
      apply find_some in F as [Hin Hc]. destruct (H c Hin). congruence.
    + change (fun col => existsb (fun kw => contains kw (lower (col_name col)))
                                 time_keywords) with named_like_time.
      destruct (find named_like_time df) as [c|] eqn:G.
      * split; [discriminate|]. intros H.
        apply find_some in G as [Hin Hc]. destruct (H c Hin). congruence.
      * split; [|reflexivity]. intros _ c Hin.
        split; [exact (proj1 (find_none_iff _ _) F c Hin)
               | exact (proj1 (find_none_iff _ _) G c Hin)].
  - intros pre c post -> Hpre Hc. unfold detect_time_column.
    now rewrite (find_first _ pre c post Hpre Hc).
Qed.

Lemma detect_time_column_result_witness :
  detect_time_column plain_env named_then_dated = Some "shipped".
Proof.
  apply (proj2 (proj2 (detect_time_column_result plain_env named_then_dated))
           [ {| col_name := "day_name"; col_data := texts ["mon"; "tue"; "wed"] |} ]
           {| col_name := "shipped";
              col_data := texts ["2024-01-05"; "2024-01-06"; "2024-01-07"] |}
           []); [reflexivity | | reflexivity].
  intros x [<- | []]. reflexivity.
Defined.

(** X18. [detect_target_column] answers none exactly when the table has
    no numeric column; what it answers is the name of a numeric column;
    and when the question mentions no numeric column it answers the
    first one. *)
Theorem detect_target_column_result df question :
  (detect_target_column df question = None <-> select_numeric df = []) /\
  (forall y, detect_target_column df question = Some y ->
             In y (columns (select_numeric df))) /\
  (forall c rest,
      select_numeric df = c :: rest ->
      (forall n, In n (columns (select_numeric df)) ->
                 mentioned n question = false) ->
      detect_target_column df question = Some (col_name c)).
Proof.
  unfold detect_target_column.
  destruct (select_numeric df) as [|c rest] eqn:S.
  - repeat split; try discriminate.
  - cbn [columns map].
    change (fun col => contains (lower (underscores_to_spaces col)) (lower question)
                       || contains (lower col) (lower question))
      with (fun col => mentioned col question).
    split; [split; [|discriminate]|split].
    + destruct (find _ _); discriminate.
    + intros y. destruct (find _ _) as [col|] eqn:F; intros [= <-].
      * apply find_some in F. tauto.
      * now left.
    + intros c' rest' [= <- <-] H.
      assert (F : find (fun col => mentioned col question)
                       (col_name c :: map col_name rest) = None).
      { apply find_none_iff. exact H. }
      now rewrite F.
Qed.

Lemma detect_target_column_result_witness :
  detect_target_column monthly_sales "what comes next" = Some "total_sales".
Proof.
  apply (proj2 (proj2 (detect_target_column_result monthly_sales "what comes next"))
           sales_column []); [reflexivity|].
  intros n [<- | []]. reflexivity.
Defined.

Lemma pow10_pos n : 0 < pow10 n.
Proof.
  unfold pow10. change 0 with (inject_Z 0). rewrite <- Zlt_Qlt.
  apply Z.pow_pos_nonneg; lia.
Qed.

Lemma py_round_mono_digits x y n : x <= y -> py_round x n <= py_round y n.
Proof.
  intros H. unfold py_round. rewrite !Qred_correct.
  pose proof (pow10_pos n) as Hp.
  assert (Hm : x * pow10 n <= y * pow10 n)
    by (apply Qmult_le_compat_r; lra).
  apply round_half_even_mono in Hm. rewrite Zle_Qle in Hm.
  unfold Qdiv. apply Qmult_le_compat_r; [exact Hm|].
  apply Qlt_le_weak, Qinv_lt_0_compat, Hp.
Qed.

Lemma sse_nonneg xs : forall ys a b, 0 <= sse xs ys a b.
Proof.
  induction xs as [|x xs IH]; intros [|y ys] a b; cbn [sse]; try lra.
  pose proof (square_nonneg (y - (b + a * x))). pose proof (IH ys a b). lra.
Qed.

Lemma sse_flat m xs :
  forall ys, length xs = length ys ->
             sse xs ys 0 m == dot (shift m ys) (shift m ys).
Proof.
  induction xs as [|x xs IH]; intros [|y ys] H; try discriminate.
  - reflexivity.
  - injection H as H. cbn [sse shift map dot]. fold (shift m ys).
    rewrite (IH ys H). ring.
Qed.

Lemma residual_dot a b xs :
  forall ys, length xs = length ys ->
    dot (map (fun p => fst p - snd p)
             (combine ys (map (fun x => b + a * x) xs)))
        (map (fun p => fst p - snd p)
             (combine ys (map (fun x => b + a * x) xs)))
    == sse xs ys a b.
Proof.
  induction xs as [|x xs IH]; intros [|y ys] H; try discriminate.
  - reflexivity.
  - injection H as H. cbn [sse map combine dot fst snd].
    rewrite (IH ys H). reflexivity.
Qed.

(** The score of the fitted line is between 0 and 1. *)
Lemma r2_fit_bounds y :
  (2 <= length y)%nat ->
  0 <= r2_score y (map (predict_at (arange (length y)) y) (arange (length y))) /\
  r2_score y (map (predict_at (arange (length y)) y) (arange (length y))) <= 1.
Proof.
  intros Hn. set (X := arange (length y)).
  assert (HL : length X = length y) by apply arange_length.
  assert (Hxx : 0 < dot (centered X) (centered X))
    by (apply arange_spread; exact Hn).
  unfold r2_score.
  change (map (predict_at X y) X)
    with (map (fun x => intercept X y + coef X y * x) X).
  set (res := map (fun p => fst p - snd p)
                  (combine y (map (fun x => intercept X y + coef X y * x) X))).
  assert (R : dot res res == sse X y (coef X y) (intercept X y))
    by (apply residual_dot; exact HL).
  assert (R0 : 0 <= dot res res) by apply dot_self_nonneg.
  assert (T0 : 0 <= dot (centered y) (centered y)) by apply dot_self_nonneg.
  assert (RT : dot res res <= dot (centered y) (centered y)).
  { rewrite R, centered_shift, <- (sse_flat (mean y) X y HL).
    apply least_squares; assumption. }
  destruct (Qeq_bool (dot (centered y) (centered y)) 0) eqn:E.
  - destruct (Qeq_bool (dot res res) 0); split; lra.
  - apply Qeq_bool_neq in E.
    assert (Tp : 0 < dot (centered y) (centered y)) by lra.
    assert (0 <= dot res res / dot (centered y) (centered y))
      by (apply Qle_shift_div_l; lra).
    assert (dot res res / dot (centered y) (centered y) <= 1)
      by (apply Qle_shift_div_r; lra).
    split; lra.
Qed.

Lemma confidence_bounds target y :
  (2 <= length y)%nat ->
  0 <= confidence (fit_and_report target y) /\
  confidence (fit_and_report target y) <= 1.
Proof.
  intros Hn. destruct (r2_fit_bounds y Hn) as [L U].
  cbn [fit_and_report confidence].
  assert (Z0 : py_round 0 4 = 0) by reflexivity.
  assert (Z1 : py_round 1 4 = 1) by reflexivity.
  split.
  - rewrite <- Z0 at 1. apply py_round_mono_digits.
    rewrite Qred_correct. exact L.
  - rewrite <- Z1. apply py_round_mono_digits.
    rewrite Qred_correct. exact U.
Qed.

(** X19. Whenever [predict] succeeds, a time column and a different
    numeric target column were detected, at least 3 rows hold a value in
    both, the result is the fit of the target values of exactly those
    rows, and the confidence it reports lies between 0 and 1. *)
Theorem predict_success_shape env df question f :
  predict env df question = Success f ->
  exists time_col target tc yc vals,
    detect_time_column env df = Some time_col /\
    detect_target_column df question = Some target /\
    time_col <> target /\
    get_column df time_col = Some tc /\
    get_column df target = Some yc /\
    col_data yc = Numeric vals /\
    (3 <= length (paired_values (present tc) vals))%nat /\
    f = fit_and_report target (paired_values (present tc) vals) /\
    0 <= confidence f /\ confidence f <= 1.
Proof.
  unfold predict.
  destruct (detect_time_column env df) as [t|]; [|discriminate].
  destruct (detect_target_column df question) as [target|]; [|discriminate].
  destruct (get_column df t) as [tc|] eqn:Gt; [|discriminate].
  destruct (get_column df target) as [yc|] eqn:Gy; [|discriminate].
  destruct (col_data yc) as [vals|] eqn:D; [|discriminate].
  destruct (Nat.ltb_spec (length (paired_values (present tc) vals)) 3);
    [discriminate|].
  destruct (String.eqb t target) eqn:E; [discriminate|].
  apply String.eqb_neq in E.
  intros [= <-].
  exists t, target, tc, yc, vals.
  repeat (split; [first [reflexivity | assumption]|]).
  apply confidence_bounds. lia.
Qed.

Lemma predict_success_shape_witness :
  exists time_col target tc yc vals,
    detect_time_column plain_env monthly_sales = Some time_col /\
    detect_target_column monthly_sales "forecast total sales" = Some target /\
    time_col <> target /\
    get_column monthly_sales time_col = Some tc /\
    get_column monthly_sales target = Some yc /\
    col_data yc = Numeric vals /\
    (3 <= length (paired_values (present tc) vals))%nat /\
    fit_and_report "total_sales" [10; 20; 30; 40]
    = fit_and_report target (paired_values (present tc) vals) /\
    0 <= confidence (fit_and_report "total_sales" [10; 20; 30; 40]) /\
    confidence (fit_and_report "total_sales" [10; 20; 30; 40]) <= 1.
Proof.
  exact (predict_success_shape plain_env monthly_sales "forecast total sales"
           (fit_and_report "total_sales" [10; 20; 30; 40]) eq_refl).
Defined.

Lemma qsum_line a b xs :
  qsum (map (fun x => b + a * x) xs) == qlen xs * b + a * qsum xs.
Proof.
  induction xs as [|x xs IH].
  - change (qlen []) with 0. cbn. ring.
  - rewrite qlen_cons. cbn [map qsum fold_right].
    fold (qsum (map (fun x => b + a * x) xs)). fold (qsum xs).
    rewrite IH. ring.
Qed.

Lemma qlen_map (f : Q -> Q) xs : qlen (map f xs) = qlen xs.
Proof. unfold qlen. now rewrite length_map. Qed.

Lemma mean_line a b xs :
  xs <> [] -> mean (map (fun x => b + a * x) xs) == b + a * mean xs.
Proof.
  intros H. unfold mean. rewrite qlen_map, qsum_line.
  pose proof (qlen_pos xs H). field. lra.
Qed.

Lemma dot_shift_comp m m' u :
  m == m' -> forall l, dot u (shift m l) == dot u (shift m' l).
Proof.
  intros E. induction u as [|x u IH]; intros [|y l]; cbn [shift map dot];
    try reflexivity.
  fold (shift m l). fold (shift m' l). rewrite (IH l), E. reflexivity.
Qed.

Lemma dot_line a b mx xs :
  dot (shift mx xs) (shift (b + a * mx) (map (fun x => b + a * x) xs))
  == a * dot (shift mx xs) (shift mx xs).
Proof.
  induction xs as [|x xs IH]; cbn [shift map dot]; [ring|].
  fold (shift mx xs).
  fold (shift (b + a * mx) (map (fun x => b + a * x) xs)).
  rewrite IH. ring.
Qed.

Lemma sse_line a b xs : sse xs (map (fun x => b + a * x) xs) a b == 0.
Proof.
  induction xs as [|x xs IH]; cbn [map sse]; [reflexivity|].
  rewrite IH. ring.
Qed.

(** The fit of points that lie on a line is that line. *)
Lemma fit_of_line a b xs :
  0 < dot (centered xs) (centered xs) ->
  coef xs (map (fun x => b + a * x) xs) == a /\
  intercept xs (map (fun x => b + a * x) xs) == b.
Proof.
  intros Hxx.
  assert (Hne : xs <> []) by (intros ->; cbn in Hxx; lra).
  assert (C : coef xs (map (fun x => b + a * x) xs) == a).
  { unfold coef. rewrite (centered_shift (map _ xs)).
    rewrite (dot_shift_comp _ _ (centered xs) (mean_line a b xs Hne)).
    rewrite (centered_shift xs) at 1. rewrite dot_line.
    rewrite <- centered_shift. field. lra. }
  split; [exact C|].
  unfold intercept. rewrite C, (mean_line a b xs Hne). ring.
Qed.

Lemma classify_slope_comp s t : s == t -> classify_slope s = classify_slope t.
Proof.
  intros E. unfold classify_slope.
  now rewrite (Qcompare_comp s t E 0 0 (Qeq_refl 0)).
Qed.

(** In exact arithmetic the fit of values on a line [b + a i] over the
    index returns that line. *)
Lemma fit_on_line target a b n :
  (2 <= n)%nat ->
  predicted_value (fit_and_report target (map (fun x => b + a * x) (arange n)))
  = py_round (b + a * inject_Z (Z.of_nat n)) 2 /\
  confidence (fit_and_report target (map (fun x => b + a * x) (arange n))) = 1 /\
  trend_tag (fit_and_report target (map (fun x => b + a * x) (arange n)))
  = classify_slope a.
Proof.
  intros Hn. set (y := map (fun x => b + a * x) (arange n)).
  assert (Hlen : length y = n) by (unfold y; now rewrite length_map, arange_length).
  assert (Hxx : 0 < dot (centered (arange n)) (centered (arange n)))
    by (apply arange_spread; exact Hn).
  destruct (fit_of_line a b (arange n) Hxx) as [C I]. fold y in C, I.
  unfold fit_and_report, qlen. rewrite Hlen.
  cbn [predicted_value confidence trend_tag].
  split; [|split].
  - apply py_round_comp. rewrite Qred_correct. unfold predict_at.
    rewrite C, I. reflexivity.
  - assert (R : r2_score y (map (predict_at (arange n) y) (arange n)) == 1).
    { unfold r2_score.
      change (map (predict_at (arange n) y) (arange n))
        with (map (fun x => intercept (arange n) y + coef (arange n) y * x)
                  (arange n)).
      set (res := map (fun p => fst p - snd p) _).
      assert (HL : length (arange n) = length y)
        by (rewrite Hlen; apply arange_length).
      assert (R : dot res res
                  == sse (arange n) y (coef (arange n) y) (intercept (arange n) y))
        by (apply residual_dot; exact HL).
      assert (Z : dot res res == 0).
      { pose proof (dot_self_nonneg res).
        pose proof (least_squares (arange n) y a b HL Hxx) as LS.
        pose proof (sse_line a b (arange n)) as SL. fold y in SL.
        lra. }
      destruct (Qeq_bool (dot (centered y) (centered y)) 0) eqn:E.
      - apply Qeq_bool_iff in Z. rewrite Z. reflexivity.
      - apply Qeq_bool_neq in E. rewrite Z. field. exact E. }
    rewrite (py_round_comp _ 1 4); [reflexivity|].
    rewrite Qred_correct. exact R.
  - apply classify_slope_comp, C.
Qed.

(** Rounding leaves a whole number as it is. *)
Lemma py_round_whole z n : py_round (inject_Z z) n == inject_Z z.
Proof.
  unfold py_round, pow10. rewrite Qred_correct.
  set (p := (10 ^ Z.of_nat n)%Z).
  assert (Hp : (0 < p)%Z) by (apply Z.pow_pos_nonneg; lia).
  assert (E : round_half_even (inject_Z z * inject_Z p) = (z * p)%Z).
  { rewrite (round_half_even_comp _ (inject_Z (z * p)))
      by (rewrite inject_Z_mult; reflexivity).
    unfold round_half_even. rewrite Qfloor_Z.
    destruct (Qcompare_spec (inject_Z (z * p) - inject_Z (z * p)) (1 # 2))
      as [H|H|H]; [exfalso; lra | reflexivity | exfalso; lra]. }
  rewrite E, inject_Z_mult. field.
  intros H. assert (inject_Z 0 < inject_Z p) by (rewrite <- Zlt_Qlt; exact Hp).
  change (inject_Z 0) with 0 in *. lra.
Qed.

(** X20. When the target values are the whole numbers [b + a i] of a
    line with integer slope and intercept over the index i = 0..n-1
    (n at least 2, all values up to index n within 2^31), the fit of
    [predict] recovers the line: the predicted value is [b + a n], the
    confidence is 1, and the trend is 'upward', 'downward' or 'stable'
    as [a] is positive, negative or zero. *)
Theorem fit_recovers_line target (a b : Z) n :
  (2 <= n)%nat ->
  (Z.abs b + Z.abs a * Z.of_nat n <= 2 ^ 31)%Z ->
  predicted_value
    (fit_and_report target
       (map (fun x => inject_Z b + inject_Z a * x) (arange n)))
  == inject_Z (b + a * Z.of_nat n) /\
  confidence
    (fit_and_report target
       (map (fun x => inject_Z b + inject_Z a * x) (arange n))) = 1 /\
  trend_tag
    (fit_and_report target
       (map (fun x => inject_Z b + inject_Z a * x) (arange n)))
  = match (a ?= 0)%Z with
    | Gt => upward
    | Lt => downward
    | Eq => stable
    end.
Proof.
  intros Hn _.
  destruct (fit_on_line target (inject_Z a) (inject_Z b) n Hn) as (P & C & T).
  split; [|split].
  - rewrite P.
    rewrite (py_round_comp _ (inject_Z (b + a * Z.of_nat n)))
      by (rewrite inject_Z_plus, inject_Z_mult; reflexivity).
    apply py_round_whole.
  - exact C.
  - rewrite T. unfold classify_slope, Qcompare. cbn [Qnum Qden inject_Z].
    now rewrite !Z.mul_1_r.
Qed.

Lemma fit_recovers_line_witness :
  predicted_value
    (fit_and_report "stock"
       (map (fun x => inject_Z 100 + inject_Z (-5) * x) (arange 6)))
  == 70 /\
  confidence
    (fit_and_report "stock"
       (map (fun x => inject_Z 100 + inject_Z (-5) * x) (arange 6))) = 1 /\
  trend_tag
    (fit_and_report "stock"
       (map (fun x => inject_Z 100 + inject_Z (-5) * x) (arange 6)))
  = downward.
Proof.
  apply (fit_recovers_line "stock" (-5) 100 6); [lia | vm_compute; discriminate].
Defined.

End ForecasterMore.

(* ------------------------------------------------------------------ *)
(** ** More on the pipeline                                            *)
(* ------------------------------------------------------------------ *)

Section PipelineMore.
Import Num Frame Report Analysis Charts Prediction Database Llm Main.
Local Open Scope Q_scope.

(** X21. The request is answered 400 exactly when the translator
    raised, the translated query is unsafe, or the query itself failed
    in [execute_query]; it is answered 500 exactly when the query is
    safe and the database cannot be opened; no other error status
    occurs. Otherwise the response carries the translated query and the
    table; without a prediction keyword the prediction stays empty and
    the insights are those of the insight generator; and when the full
    table cannot be read the prediction records a failure while the
    insights are kept. *)
Theorem analyze_request_outcome env question reply run full :
  (analyze_request env question reply run full = HttpError 400 <->
   reply = None \/
   exists content,
     reply = Some content /\
     (validate_sql (clean_reply content) = false \/ run = QueryError)) /\
  (analyze_request env question reply run full = HttpError 500 <->
   exists content,
     reply = Some content /\
     validate_sql (clean_reply content) = true /\ run = ConnectError) /\
  (forall status,
      analyze_request env question reply run full = HttpError status ->
      status = 400%nat \/ status = 500%nat) /\
  (forall content table,
      reply = Some content ->
      validate_sql (clean_reply content) = true ->
      run = Rows table ->
      exists r,
        analyze_request env question reply run full = Done r /\
        sql_query r = clean_reply content /\ table_result r = table /\
        (asks_prediction question = false ->
         prediction_result r = None /\ insights r = base_insights table) /\
        (asks_prediction question = true -> full = None ->
         prediction_result r = Some (Failure PredictionFailed) /\
         insights r = base_insights table)).
Proof.
  unfold analyze_request, nl_to_sql.
  destruct reply as [content|].
  2:{ split; [|split; [|split]].
      - split; [now left | reflexivity].
      - split; [discriminate | intros (c & H & _); discriminate H].
      - intros status [= <-]. now left.
      - intros content table H. discriminate H. }
  destruct (validate_sql (clean_reply content)) eqn:V; cbn [negb].
  2:{ split; [|split; [|split]].
      - split; [|reflexivity]. intros _. right. exists content. auto.
      - split; [discriminate | intros (c & [= <-] & H & _); congruence].
      - intros status [= <-]. now left.
      - intros c table [= <-] H. congruence. }
  destruct run as [| |table].
  - split; [|split; [|split]].
    + split; [discriminate|].
      intros [H | (c & [= <-] & [H | H])];
        [discriminate H | congruence | discriminate H].
    + split; [|reflexivity]. intros _. exists content. auto.
    + intros status [= <-]. now right.
    + intros c t _ _ H. discriminate H.
  - split; [|split; [|split]].
    + split; [|reflexivity]. intros _. right. exists content. auto.
    + split; [discriminate | intros (c & _ & _ & H); discriminate H].
    + intros status [= <-]. now left.
    + intros c t _ _ H. discriminate H.
  - unfold analyze_data. rewrite V. cbn [negb].
    split; [|split; [|split]].
    + split; [discriminate|].
      intros [H | (c & [= <-] & [H | H])];
        [discriminate H | congruence | discriminate H].
    + split; [discriminate | intros (c & _ & _ & H); discriminate H].
    + discriminate.
    + intros c t [= <-] _ [= <-]. unfold base_insights.
      eexists. split; [reflexivity|].
      cbn [sql_query table_result prediction_result insights].
      split; [reflexivity|]. split; [reflexivity|]. split.
      * intros ->. cbn [fst snd].
        destruct (nrows table =? 0)%nat; split; reflexivity.
      * intros -> ->. cbn [fst snd].
        destruct (nrows table =? 0)%nat; split; reflexivity.
Qed.

Lemma analyze_request_outcome_witness :
  exists r,
    analyze_request plain_env "predict revenue"
                    (Some "SELECT * FROM data;") (Rows five_regions) None
    = Done r /\
    sql_query r = "SELECT * FROM data" /\ table_result r = five_regions /\
    prediction_result r = Some (Failure PredictionFailed) /\
    insights r = base_insights five_regions.
Proof.
  destruct (proj2 (proj2 (proj2
              (analyze_request_outcome plain_env "predict revenue"
                 (Some "SELECT * FROM data;") (Rows five_regions) None)))
              "SELECT * FROM data;" five_regions eq_refl eq_refl eq_refl)
    as (r & Hr & Hq & Ht & _ & Hp).
  exists r. destruct (Hp eq_refl eq_refl) as [P I]. auto.
Defined.

(** X22. A forecast whose value rounds to zero is kept in the response
    but its sentence is not added to the insights: the test on
    [predicted_value] reads zero as absent. *)
Theorem zero_forecast_not_reported env question sql table full f :
  validate_sql sql = true ->
  asks_prediction question = true ->
  predict env full question = Success f ->
  predicted_value f == 0 ->
  exists r,
    analyze_data env question sql (Some table) (Some full) = Done r /\
    prediction_result r = Some (Success f) /\
    insights r = base_insights table.
Proof.
  intros Hsafe Hask Hf Hz.
  destruct (analyze_data_done env question sql table full Hsafe Hask)
    as (r & Hr & Hp & Hi).
  exists r. split; [exact Hr|]. split; [now rewrite Hp, Hf|].
  rewrite Hi, Hf. cbn [has_predicted_value].
  apply Qeq_bool_iff in Hz. now rewrite Hz.
Qed.

Lemma zero_forecast_not_reported_witness :
  exists r,
    analyze_data plain_env "forecast net change" "SELECT * FROM data"
                 (Some flat_zero) (Some flat_zero) = Done r /\
    prediction_result r
    = Some (Success (fit_and_report "net_change" [0; 0; 0])) /\
    insights r = base_insights flat_zero.
Proof.
  apply (zero_forecast_not_reported plain_env "forecast net change"
           "SELECT * FROM data" flat_zero flat_zero
           (fit_and_report "net_change" [0; 0; 0]));
    reflexivity.
Defined.

End PipelineMore.
